(** * k9s: log window model, container listing and command extenders

    A shallow embedding of

    - [internal/dao/log_options.go]  ([LogOptions], [Clone],
      [ToggleAllContainers], [ToPodLogOptions]),
    - [internal/dao/container.go]    ([Container.List] and its helpers),
    - package [view]: [LogsExtender] ([logsCmd], [isResourcePath],
      [showLogs], [buildLogOpts]) and [ImageExtender] ([setImageCmd],
      [setTraceLogsCmd] and the dialogs they open),

    followed by the properties the design document states about them.

    Conventions.  Go's [int64] and [time.Duration] are [Z]; the code only
    compares and copies them, so no wrap-around arises.  A Go [string] is a
    [string].  A pointer that may be nil is an [option]; a Go result
    [(v, err)] is a pair whose second component is [None] for a nil error.
    A struct reached through a pointer and mutated in place lives in a
    store ([gmap loc _]). *)

From Stdlib Require Import ZArith String List Lia.
From stdpp Require Import base option gmap strings list.

Local Open Scope string_scope.
Local Open Scope Z_scope.

(** Go's [error] values: only the message is kept. *)
Definition error := string.

(** The sixteen lower-case hexadecimal digits. *)
Definition lowerhex (n : nat) : Ascii.ascii :=
  nth n (list_ascii_of_string "0123456789abcdef") (Ascii.ascii_of_nat 48).

(** What [strconv.Quote] writes for one byte of an ASCII string: the
    double quote and the backslash are backslashed, the seven control
    characters with a letter escape get it, every other control
    character becomes [\x] and two hexadecimal digits, and a printable
    character stands for itself. *)
Definition quote_byte (c : Ascii.ascii) : string :=
  let n := Ascii.nat_of_ascii c in
  let backslash := Ascii.ascii_of_nat 92 in
  let esc := fun (k : nat) =>
               String backslash (String (Ascii.ascii_of_nat k) EmptyString) in
  if (n =? 34)%nat || (n =? 92)%nat then String backslash (String c EmptyString)
  else if (n =? 7)%nat then esc 97%nat
  else if (n =? 8)%nat then esc 98%nat
  else if (n =? 12)%nat then esc 102%nat
  else if (n =? 10)%nat then esc 110%nat
  else if (n =? 13)%nat then esc 114%nat
  else if (n =? 9)%nat then esc 116%nat
  else if (n =? 11)%nat then esc 118%nat
  else if (n <? 32)%nat || (n =? 127)%nat then
    String backslash
      (String (Ascii.ascii_of_nat 120)
         (String (lowerhex (n / 16))
            (String (lowerhex (n mod 16)) EmptyString)))
  else String c EmptyString.

(** [fmt]'s [%q] verb on a string, which is [strconv.Quote].  On a
    string of ASCII characters this is Go's result to the byte; a byte
    of 128 or more is kept as it is, which is Go's result only inside a
    printable rune. *)
Definition quote (s : string) : string :=
  let q := String (Ascii.ascii_of_nat 34) EmptyString in
  (q ++ String.concat "" (map quote_byte (list_ascii_of_string s)) ++ q)%string.

(** The strings [quote] is exact on. *)
Definition ascii_only (s : string) : bool :=
  forallb (fun c => (Ascii.nat_of_ascii c <? 128)%nat) (list_ascii_of_string s).

(** How a Go call ends: it returns, or it panics and unwinds. *)
Inductive outcome (A : Type) : Type :=
| Return (a : A)
| Panic (msg : string).
Arguments Return {A} a.
Arguments Panic {A} msg.

(* ===================================================================== *)
(** ** Package [time] (Go standard library): the interface the code uses *)
(* ===================================================================== *)

Module time.

(** [time.Duration] is an [int64] count of nanoseconds. *)
Definition Duration := Z.
Definition Second : Duration := 1000000000.

(** The layout constant [time.RFC3339]. *)
Definition RFC3339 : string := "2006-01-02T15:04:05Z07:00".

(** [time.Time], [time.Parse] and [Time.Add] belong to the Go runtime
    library; the embedding is generic in them.  [Parse layout value]
    is [None] when Go returns a non-nil error, which it does for the
    empty string under the RFC3339 layout. *)
Class Pkg := {
  Time : Type;
  Parse : string -> string -> option Time;
  Add : Time -> Duration -> Time;
  Parse_RFC3339_empty : Parse RFC3339 "" = None
}.

(** *** An instance: instants as nanoseconds since the Unix epoch

    [Parse_utc] reads the UTC form of the layout, [YYYY-MM-DDThh:mm:ssZ],
    and rejects every other string; Go's parser also reads numeric zone
    offsets and fractional seconds. *)

Definition digit (c : Ascii.ascii) : option Z :=
  let n := Z.of_nat (Ascii.nat_of_ascii c) in
  if (48 <=? n) && (n <=? 57) then Some (n - 48) else None.

(** The decimal number written by the characters of [cs]. *)
Fixpoint number (acc : Z) (cs : list Ascii.ascii) : option Z :=
  match cs with
  | [] => Some acc
  | c :: cs' =>
      match digit c with
      | Some d => number (10 * acc + d) cs'
      | None => None
      end
  end.

Definition is_leap (y : Z) : bool :=
  (y mod 4 =? 0) && (negb (y mod 100 =? 0) || (y mod 400 =? 0)).

Definition days_in_month (y m : Z) : Z :=
  if m =? 2 then (if is_leap y then 29 else 28)
  else if (m =? 4) || (m =? 6) || (m =? 9) || (m =? 11) then 30
  else 31.

(** Days from 1970-01-01 to the given civil date. *)
Definition days_from_civil (y m d : Z) : Z :=
  let y' := if m <=? 2 then y - 1 else y in
  let era := y' / 400 in
  let yoe := y' - era * 400 in
  let mp := if 2 <? m then m - 3 else m + 9 in
  let doy := (153 * mp + 2) / 5 + d - 1 in
  let doe := yoe * 365 + yoe / 4 - yoe / 100 + doy in
  era * 146097 + doe - 719468.

Definition Parse_utc (layout value : string) : option Z :=
  if negb (String.eqb layout RFC3339) then None
  else
    match list_ascii_of_string value with
    | [y1; y2; y3; y4; s1; m1; m2; s2; d1; d2; T;
       h1; h2; c1; n1; n2; c2; e1; e2; z] =>
        let sep := fun (c : Ascii.ascii) (k : nat) =>
                     Ascii.eqb c (Ascii.ascii_of_nat k) in
        if sep s1 45%nat && sep s2 45%nat && sep T 84%nat
           && sep c1 58%nat && sep c2 58%nat && sep z 90%nat
        then
          match number 0 [y1; y2; y3; y4], number 0 [m1; m2],
                number 0 [d1; d2], number 0 [h1; h2],
                number 0 [n1; n2], number 0 [e1; e2] with
          | Some y, Some m, Some d, Some h, Some mi, Some se =>
              if (1 <=? m) && (m <=? 12) && (1 <=? d)
                 && (d <=? days_in_month y m)
                 && (h <? 24) && (mi <? 60) && (se <? 60)
              then
                Some ((((days_from_civil y m d * 24 + h) * 60 + mi) * 60 + se)
                      * Second)
              else None
          | _, _, _, _, _, _ => None
          end
        else None
    | _ => None
    end.

End time.

(* ===================================================================== *)
(** ** Package [k8s.io/api/core/v1]: the structs the code fills or reads *)
(* ===================================================================== *)

Module v1.

Module PodLogOptions.
(** [SinceTime] is a [*metav1.Time], a wrapper around [time.Time]. *)
Record t {T : Type} := mk {
  Container : string;
  Follow : bool;
  Previous : bool;
  SinceSeconds : option Z;
  SinceTime : option T;
  Timestamps : bool;
  TailLines : option Z;
  LimitBytes : option Z;
  InsecureSkipTLSVerifyBackend : bool
}.
Arguments t : clear implicits.
Arguments mk {T}.
End PodLogOptions.

Module Container.
Record t := mk { Name : string; Image : string }.
End Container.

Module ContainerStatus.
Record t := mk { Name : string; Ready : bool; RestartCount : Z }.
End ContainerStatus.

Module PodSpec.
Record t := mk {
  InitContainers : list Container.t;
  Containers : list Container.t
}.
End PodSpec.

Module PodStatus.
Record t := mk {
  InitContainerStatuses : list ContainerStatus.t;
  ContainerStatuses : list ContainerStatus.t
}.
End PodStatus.

Module Pod.
(** [CreationTimestamp] is what [po.GetCreationTimestamp()] returns. *)
Record t := mk {
  CreationTimestamp : Z;
  Spec : PodSpec.t;
  Status : PodStatus.t
}.
End Pod.

End v1.

(** [k8s.io/metrics/pkg/apis/metrics/v1beta1.ContainerMetrics]. *)
Module mv1beta1.
Module ContainerMetrics.
Record t := mk { Name : string; cpu : Z; memory : Z }.
End ContainerMetrics.
End mv1beta1.

(** [internal/render.ContainerRes]: the synthetic record of one container. *)
Module render.
Record ContainerRes := mkContainerRes {
  Container : v1.Container.t;
  Status : option v1.ContainerStatus.t;
  MX : option mv1beta1.ContainerMetrics.t;
  IsInit : bool;
  Age : Z
}.
End render.

(* ===================================================================== *)
(** ** Package [internal/dao]: log_options.go                            *)
(* ===================================================================== *)

Module dao.

(** [type LogOptions struct]. *)
Record LogOptions := mkLogOptions {
  CreateDuration : time.Duration;
  Path : string;
  Container : string;
  DefaultContainer : string;
  SinceTime : string;
  Lines : Z;
  SinceSeconds : Z;
  Head : bool;
  Previous : bool;
  SingleContainer : bool;
  MultiPods : bool;
  ShowTimestamp : bool;
  AllContainers : bool
}.

(** The zero value of the struct, which a composite literal starts from. *)
Definition zero : LogOptions :=
  mkLogOptions 0 "" "" "" "" 0 0 false false false false false false.

(** [func (o *LogOptions) Clone() *LogOptions]: the composite literal
    names twelve fields; a field it does not name keeps its zero value. *)
Definition Clone (o : LogOptions) : LogOptions :=
  {| CreateDuration := 0 (* not named in the literal: zero value *);
     Path := Path o;
     Container := Container o;
     DefaultContainer := DefaultContainer o;
     Lines := Lines o;
     Previous := Previous o;
     Head := Head o;
     SingleContainer := SingleContainer o;
     MultiPods := MultiPods o;
     ShowTimestamp := ShowTimestamp o;
     SinceTime := SinceTime o;
     SinceSeconds := SinceSeconds o;
     AllContainers := AllContainers o |}.

(** [func (o *LogOptions) HasContainer() bool]. *)
Definition HasContainer (o : LogOptions) : bool :=
  negb (String.eqb (Container o) "").

(** Field assignments through the receiver pointer. *)
Definition set_AllContainers (b : bool) (o : LogOptions) : LogOptions :=
  mkLogOptions (CreateDuration o) (Path o) (Container o)
    (DefaultContainer o) (SinceTime o) (Lines o) (SinceSeconds o) (Head o)
    (Previous o) (SingleContainer o) (MultiPods o) (ShowTimestamp o) b.

Definition set_Container (c : string) (o : LogOptions) : LogOptions :=
  mkLogOptions (CreateDuration o) (Path o) c
    (DefaultContainer o) (SinceTime o) (Lines o) (SinceSeconds o) (Head o)
    (Previous o) (SingleContainer o) (MultiPods o) (ShowTimestamp o)
    (AllContainers o).

Definition set_DefaultContainer (c : string) (o : LogOptions) : LogOptions :=
  mkLogOptions (CreateDuration o) (Path o) (Container o)
    c (SinceTime o) (Lines o) (SinceSeconds o) (Head o)
    (Previous o) (SingleContainer o) (MultiPods o) (ShowTimestamp o)
    (AllContainers o).

(** [func (o *LogOptions) ToggleAllContainers()], as the transformer of
    the struct behind the receiver. *)
Definition ToggleAllContainers (o : LogOptions) : LogOptions :=
  if SingleContainer o then o
  else
    let o1 := set_AllContainers (negb (AllContainers o)) o in
    if AllContainers o1 then
      (* o.DefaultContainer, o.Container = o.Container, "" *)
      set_Container "" (set_DefaultContainer (Container o1) o1)
    else if negb (String.eqb (DefaultContainer o1) "") then
      set_Container (DefaultContainer o1) o1
    else o1.

(** *** The store: [*LogOptions] values *)

Definition loc := positive.
Abbreviation heap := (gmap loc LogOptions).

(** [o.Clone()] on a pointer: reads the struct behind [p] (a nil or
    dangling receiver has no result) and allocates the copy at an
    address not yet in use. *)
Definition Clone_ptr (h : heap) (p : loc) : option (loc * heap) :=
  match h !! p with
  | Some o => let q := fresh (dom h) in Some (q, <[q := Clone o]> h)
  | None => None
  end.

(** An in-place mutation [f] of the struct behind [p]. *)
Definition mutate (f : LogOptions -> LogOptions) (p : loc) (h : heap) : heap :=
  alter f p h.

(** [o.ToggleAllContainers()] on a pointer. *)
Definition ToggleAllContainers_ptr (p : loc) (h : heap) : heap :=
  mutate ToggleAllContainers p h.

(** *** [ToPodLogOptions] *)

Section ToPodLogOptions.
Context `{time.Pkg}.

Abbreviation PodLogOptions := (v1.PodLogOptions.t time.Time).

(** [func (o *LogOptions) ToPodLogOptions() *v1.PodLogOptions].
    [TailLines] and [SinceSeconds] are pointers to fields of [o]; the
    result records the values they point to at the time of the call. *)
Definition ToPodLogOptions (o : LogOptions) : PodLogOptions :=
  let Follow := true in
  let Timestamps := true in
  let Container := Container o in
  let Previous := Previous o in
  let TailLines := Some (Lines o) in
  if Head o then
    let maxBytes := 5000 in
    v1.PodLogOptions.mk Container false Previous None None Timestamps
      None (Some maxBytes) false
  else if SinceSeconds o <? 0 then
    v1.PodLogOptions.mk Container Follow Previous None None Timestamps
      TailLines None false
  else if negb (SinceSeconds o =? 0) then
    v1.PodLogOptions.mk Container Follow Previous (Some (SinceSeconds o))
      None Timestamps TailLines None false
  else if String.eqb (SinceTime o) "" then
    v1.PodLogOptions.mk Container Follow Previous None None Timestamps
      TailLines None false
  else
    match time.Parse time.RFC3339 (SinceTime o) with
    | Some t =>
        v1.PodLogOptions.mk Container Follow Previous None
          (Some (time.Add t time.Second)) Timestamps TailLines None false
    | None =>
        v1.PodLogOptions.mk Container Follow Previous None None Timestamps
          TailLines None false
    end.
End ToPodLogOptions.

(* --------------------------------------------------------------------- *)
(** *** container.go                                                      *)
(* --------------------------------------------------------------------- *)

(** [client.ContainersMetrics] is a [map[string]*mv1beta1.ContainerMetrics];
    the nil map is the empty map, and indexing a missing key yields nil. *)
Abbreviation ContainersMetrics := (gmap string mv1beta1.ContainerMetrics.t).

(** The two context values [List] reads; each is [None] when the key is
    absent or holds a value of another type (the comma-ok assertion). *)
Record Context := mkContext {
  KeyPath : option string;
  KeyWithMetrics : option bool
}.

(** What the factory hands back for [Get]: a [runtime.Object]. *)
Inductive Object (U : Type) : Type :=
| Unstructured (content : U)
| OtherObject (kind : string).
Arguments Unstructured {U} content.
Arguments OtherObject {U} kind.

(** The collaborators of [Container]: the shared factory
    ([GetFactory().Get]), the metrics client
    ([client.DialMetrics(c.Client()).FetchContainersMetrics]) and
    [runtime.DefaultUnstructuredConverter.FromUnstructured], each with
    its Go result. *)
Class Factory := {
  Content : Type;
  Get : string -> string -> option (Object Content) * option error;
  FetchContainersMetrics : string -> ContainersMetrics * option error;
  FromUnstructured : Content -> v1.Pod.t * option error
}.

(** [func getContainerStatus(co string, status v1.PodStatus)
    *v1.ContainerStatus]. *)
Definition getContainerStatus (co : string) (status : v1.PodStatus.t)
  : option v1.ContainerStatus.t :=
  match find (fun c => String.eqb (v1.ContainerStatus.Name c) co)
             (v1.PodStatus.ContainerStatuses status) with
  | Some c => Some c
  | None =>
      find (fun c => String.eqb (v1.ContainerStatus.Name c) co)
           (v1.PodStatus.InitContainerStatuses status)
  end.

(** [func makeContainerRes(co, po, cmx, isInit) render.ContainerRes]. *)
Definition makeContainerRes (co : v1.Container.t) (po : v1.Pod.t)
    (cmx : option mv1beta1.ContainerMetrics.t) (isInit : bool)
  : render.ContainerRes :=
  {| render.Container := co;
     render.Status :=
       getContainerStatus (v1.Container.Name co) (v1.Pod.Status po);
     render.MX := cmx;
     render.IsInit := isInit;
     render.Age := v1.Pod.CreationTimestamp po |}.

Section Container.
Context `{Factory}.

(** [func (c *Container) fetchPod(fqn string)], returning a [*v1.Pod]
    and an [error].  The type assertion of [o] to
    [*unstructured.Unstructured] has no comma-ok form, so any other
    object (nil included) panics. *)
Definition fetchPod (fqn : string) : outcome (option v1.Pod.t * option error) :=
  match Get "v1/pods" fqn with
  | (_, Some err) => Return (None, Some err)
  | (Some (Unstructured u), None) =>
      let '(po, err) := FromUnstructured u in Return (Some po, err)
  | (_, None) => Panic "interface conversion"
  end.

(** The variable [cmx] of [List] after
    [if withMx || !ok { cmx, _ = ...FetchContainersMetrics(ctx, fqn) }]:
    nil when the context switches metrics off, else the map the fetch
    handed back; the error that came with it is discarded. *)
Definition metrics_used (ctx : Context) (fqn : string) : ContainersMetrics :=
  match KeyWithMetrics ctx with
  | Some false => ∅
  | Some true | None => fst (FetchContainersMetrics fqn)
  end.

(** [func (c *Container) List(ctx context.Context, _ string)
    ([]runtime.Object, error)]; [gvr] is the receiver's [c.gvr]. *)
Definition List (gvr : string) (ctx : Context)
  : outcome (list render.ContainerRes * option error) :=
  match KeyPath ctx with
  | None => Return ([], Some ("no context path for " ++ quote gvr)%string)
  | Some fqn =>
      let cmx := metrics_used ctx fqn in
      match fetchPod fqn with
      | Panic msg => Panic msg
      | Return (_, Some err) => Return ([], Some err)
      | Return (None, None) => Panic "nil pointer dereference"
      | Return (Some po, None) =>
          let res : list render.ContainerRes := [] in
          let res :=
            fold_left
              (fun res co =>
                 (res ++ [makeContainerRes co po
                            (cmx !! v1.Container.Name co) true])%list)
              (v1.PodSpec.InitContainers (v1.Pod.Spec po)) res in
          let res :=
            fold_left
              (fun res co =>
                 (res ++ [makeContainerRes co po
                            (cmx !! v1.Container.Name co) false])%list)
              (v1.PodSpec.Containers (v1.Pod.Spec po)) res in
          Return (res, None)
      end
  end.

End Container.

(* --------------------------------------------------------------------- *)
(** *** log_options.go: the remaining methods                             *)
(* --------------------------------------------------------------------- *)

(** [func (o *LogOptions) Info() string]. *)
Definition Info (o : LogOptions) : string :=
  if negb (Nat.eqb (String.length (Container o)) 0) then
    (Path o ++ " (" ++ Container o ++ ")")%string
  else Path o.

(** Modelled from the spec: [dao.LogItem] is declared in a file of the
    package that is not among the sources.  The spec gives a log entry
    as raw bytes plus derived fields: owning pod name, owning container
    name, a single-container flag and an error flag; these are the
    fields the methods below assign. *)
Module LogItem.
Record t := mk {
  Pod : string;
  Container : string;
  SingleContainer : bool;
  Bytes : list Byte.byte;
  IsError : bool
}.
End LogItem.

(** [dao.ImageSpec], declared in a file of the package that is not
    among the sources, with the fields the composite literal of
    [imageSpec] names. *)
Module ImageSpec.
Record t := mk {
  Name : string;
  Init : bool;
  DockerImage : string
}.
End ImageSpec.

End dao.

(* ===================================================================== *)
(** ** Package [internal/client]: what the view code calls               *)
(* ===================================================================== *)

Module client.

(** [client.Namespaced] splits a resource path into its namespace and
    name; [client.MonitorAccess] is the verb list of the access check.
    The view code is generic in both. *)
Class Pkg := {
  Namespaced : string -> string * string;
  MonitorAccess : list string
}.

Definition slash : Ascii.ascii := Ascii.ascii_of_nat 47.

(** Splits right after the last slash: the directory part keeps it. *)
Fixpoint split_last (p : string) : string * string :=
  match p with
  | EmptyString => (EmptyString, EmptyString)
  | String c rest =>
      let '(d, f) := split_last rest in
      if Ascii.eqb c slash then (String c d, f)
      else if String.eqb d "" then (EmptyString, String c f)
      else (String c d, f)
  end.

Fixpoint trim_left (s : string) : string :=
  match s with
  | String c rest => if Ascii.eqb c slash then trim_left rest else s
  | EmptyString => EmptyString
  end.

Fixpoint rev_string (acc s : string) : string :=
  match s with
  | EmptyString => acc
  | String c rest => rev_string (String c acc) rest
  end.

Definition trim (s : string) : string :=
  rev_string "" (trim_left (rev_string "" (trim_left s))).

(** Modelled from the spec: [client.Namespaced] is declared in
    [internal/client], which is not among the sources.  The spec gives a
    resource path as [<namespace>/<name>], or a bare [<name>]: the name
    is what follows the last slash, the namespace what precedes it,
    without its bounding slashes. *)
Definition Namespaced_model (p : string) : string * string :=
  let '(ns, n) := split_last p in (trim ns, n).

(** Modelled from the spec: [client.MonitorAccess] is declared in
    [internal/client]; the spec names it monitor/read access. *)
Definition MonitorAccess_model : list string := ["get"; "list"; "watch"].

Definition model : Pkg :=
  {| Namespaced := Namespaced_model; MonitorAccess := MonitorAccess_model |}.

End client.

(** [internal/config.Logger]: the two settings [buildLogOpts] reads. *)
Module config.
Record Logger := mkLogger {
  TailCount : Z;
  ShowTime : bool
}.
End config.

(* ===================================================================== *)
(** ** Package [internal/view]: the logs and image extenders             *)
(* ===================================================================== *)

Module view.

(** [*tcell.EventKey]: the key code suffices; nil is [None]. *)
Definition EventKey := Z.

Definition imageKey : string := "setImage".

(** [type imageFormSpec struct]. *)
Record imageFormSpec := mkImageFormSpec {
  name : string;
  dockerImage : string;
  newDockerImage : string;
  init : bool;
  traceLog : bool;
  newTraceLog : bool
}.

(** A [tview.Form] as the code builds it: its input fields (label, initial
    text, width) and its buttons, in the order added.  The callbacks the
    code attaches run only when the user edits or submits the form, after
    the command handler has returned. *)
Record Form := mkForm {
  inputFields : list (string * string * Z);
  buttons : list string
}.

(** A [tview.ModalForm]: title, form and text. *)
Record ModalForm := mkModalForm {
  title : string;
  form : Form;
  text : string
}.

(** The view [NewLog(gvr, opts)] builds. *)
Record Log := mkLog {
  log_gvr : string;
  log_opts : option dao.LogOptions
}.

(** [dao.ContainsPodSpec]: the capability the image dialog needs. *)
Record ContainsPodSpec := mkContainsPodSpec {
  GetPodSpec : string -> option v1.PodSpec.t * option error
}.

(** A [dao.Accessor] value: the name of its concrete type and the
    capability it implements, if any. *)
Record Accessor := mkAccessor {
  typeName : string;
  asContainsPodSpec : option ContainsPodSpec
}.

(** The application behind [App()]: configuration, factory and view
    stack, each call with its Go result.  [inject] initialises the view
    it is given and may panic in doing so, as it does on a log view
    without options. *)
Record App := mkApp {
  Logger : config.Logger;
  CanForResource : string -> string -> list string -> bool * option error;
  inject : Log -> bool -> outcome (option error);
  AccessorFor : string -> option Accessor * option error
}.

(** The wrapped [ResourceViewer]: what the handlers read from it. *)
Record ResourceViewer := mkResourceViewer {
  GetSelectedItem : string;
  Table_Path : string;
  GVR : string;
  app : App
}.

(** [type LogOptionsFunc]: from [bool] to a [*dao.LogOptions] and an
    [error]. *)
Definition LogOptionsFunc := bool -> option dao.LogOptions * option error.

(** [type LogsExtender struct]; a nil [optionsFn] is [None]. *)
Record LogsExtender := mkLogsExtender {
  logs_viewer : ResourceViewer;
  optionsFn : option LogOptionsFunc
}.

(** [type ImageExtender struct]. *)
Record ImageExtender := mkImageExtender {
  image_viewer : ResourceViewer
}.

(** Every call a handler makes on a collaborator, in the order made. *)
Inductive event : Type :=
| call_Stop
| call_Start
| call_Flash_Err (err : error)
| call_CanForResource (ns gvr : string) (verbs : list string)
| call_optionsFn (prev : bool)
| call_inject (v : Log) (clear : bool)
| call_AccessorFor (gvr : string)
| call_GetPodSpec (path : string)
| call_AddPage (name : string) (item : ModalForm) (resize visible : bool)
| call_ShowPage (name : string).

(** *** Handler computations: a trace of calls, and a result or a panic *)

Definition M (A : Type) : Type := list event -> outcome A * list event.

Definition ret {A} (a : A) : M A := fun tr => (Return a, tr).

Definition bind {A B} (m : M A) (k : A -> M B) : M B :=
  fun tr =>
    match m tr with
    | (Return a, tr') => k a tr'
    | (Panic msg, tr') => (Panic msg, tr')
    end.

(** A call on a collaborator that answers [r]. *)
Definition call {A} (e : event) (r : A) : M A :=
  fun tr => (Return r, (tr ++ [e])%list).

Definition panic {A} (msg : string) : M A := fun tr => (Panic msg, tr).

(** A call on a collaborator that returns or panics. *)
Definition call_outcome {A} (e : event) (r : outcome A) : M A :=
  fun tr => (r, (tr ++ [e])%list).

(** [defer d] followed by [body]: [d] runs when [body] has returned and
    also when it has panicked; the result or the panic of [body] stands,
    unless [d] panics itself. *)
Definition defer {A} (d : M unit) (body : M A) : M A :=
  fun tr =>
    let '(r, tr') := body tr in
    match d tr' with
    | (Return _, tr'') => (r, tr'')
    | (Panic msg, tr'') => (Panic msg, tr'')
    end.

Declare Scope handler_scope.
Delimit Scope handler_scope with handler.
Notation "x <- m ;; k" := (bind m (fun x => k))
  (at level 100, m at next level, right associativity) : handler_scope.
Notation "m ;; k" := (bind m (fun _ => k))
  (at level 100, right associativity) : handler_scope.
Local Open Scope handler_scope.

(** Runs a handler from the empty trace. *)
Definition run {A} (m : M A) : outcome A * list event := m [].

(** The interactive loop after a trace, from its state before. *)
Definition loop_running (before : bool) (tr : list event) : bool :=
  fold_left
    (fun running e =>
       match e with
       | call_Stop => false
       | call_Start => true
       | _ => running
       end) tr before.

(** The calls that suspend or resume the loop. *)
Definition loop_call (e : event) : Prop :=
  e = call_Stop \/ e = call_Start.

(** A call that neither suspends nor resumes the loop. *)
Definition quiet (e : event) : Prop := ~ loop_call e.

(** [m] only adds calls satisfying [P] to the trace. *)
Definition emits {A} (P : event -> Prop) (m : M A) : Prop :=
  forall tr, exists r mid, m tr = (r, (tr ++ mid)%list) /\ Forall P mid.

(** [m] returns (it never panics), adding calls satisfying [P]. *)
Definition returns {A} (P : event -> Prop) (m : M A) : Prop :=
  forall tr, exists a mid, m tr = (Return a, (tr ++ mid)%list) /\ Forall P mid.


Section handlers.
Context `{client.Pkg}.

(** [func isResourcePath(p string) bool]. *)
Definition isResourcePath (p : string) : bool :=
  let '(ns, n) := client.Namespaced p in
  negb (String.eqb ns "") && negb (String.eqb n "").

(** [func (l *LogsExtender) buildLogOpts(path, co string, prevLogs bool)
    *dao.LogOptions]. *)
Definition buildLogOpts (l : LogsExtender) (path co : string)
    (prevLogs : bool) : dao.LogOptions :=
  let cfg := Logger (app (logs_viewer l)) in
  let opts :=
    {| dao.CreateDuration := dao.CreateDuration dao.zero;
       dao.Path := path;
       dao.Container := co;
       dao.DefaultContainer := dao.DefaultContainer dao.zero;
       dao.SinceTime := dao.SinceTime dao.zero;
       dao.Lines := config.TailCount cfg;
       dao.SinceSeconds := dao.SinceSeconds dao.zero;
       dao.Head := dao.Head dao.zero;
       dao.Previous := prevLogs;
       dao.SingleContainer := dao.SingleContainer dao.zero;
       dao.MultiPods := dao.MultiPods dao.zero;
       dao.ShowTimestamp := config.ShowTime cfg;
       dao.AllContainers := dao.AllContainers dao.zero |} in
  if String.eqb (dao.Container opts) "" then dao.set_AllContainers true opts
  else opts.

(** The tail of [showLogs]: [l.App().inject(NewLog(l.GVR(), opts), false)]
    and the report of its error; a panic of the call unwinds. *)
Definition injectLog (l : LogsExtender) (opts : option dao.LogOptions)
  : M unit :=
  let v := mkLog (GVR (logs_viewer l)) opts in
  err <- call_outcome (call_inject v false)
           (inject (app (logs_viewer l)) v false) ;;
  match err with
  | Some e => call (call_Flash_Err e) tt
  | None => ret tt
  end.

(** [func (l *LogsExtender) showLogs(path string, prev bool)]. *)
Definition showLogs (l : LogsExtender) (path : string) (prev : bool)
  : M unit :=
  let '(ns, _) := client.Namespaced path in
  r <- call (call_CanForResource ns "v1/pods" client.MonitorAccess)
         (CanForResource (app (logs_viewer l)) ns "v1/pods"
            client.MonitorAccess) ;;
  match snd r with
  | Some err => call (call_Flash_Err err) tt
  | None =>
      let opts := Some (buildLogOpts l path "" prev) in
      match optionsFn l with
      | Some f =>
          r <- call (call_optionsFn prev) (f prev) ;;
          match r with
          | (_, Some err) => call (call_Flash_Err err) tt
          | (opts, None) => injectLog l opts
          end
      | None => injectLog l opts
      end
  end.

(** [func (l *LogsExtender) logsCmd(prev bool)], applied to the key
    event.  The [fmt.Errorf] value the body builds is discarded. *)
Definition logsCmd (l : LogsExtender) (prev : bool) (evt : EventKey)
  : M (option EventKey) :=
  let path := GetSelectedItem (logs_viewer l) in
  if String.eqb path "" then ret None
  else
    let path :=
      if negb (isResourcePath path) then Table_Path (logs_viewer l)
      else path in
    showLogs l path prev ;;
    ret None.

(** [func (s *ImageExtender) makeStyledForm() *tview.Form]: an empty
    form; the calls set colours and padding only. *)
Definition makeStyledForm : Form := mkForm [] [].

Definition AddInputField (label txt : string) (width : Z) (f : Form) : Form :=
  mkForm (inputFields f ++ [(label, txt, width)])%list (buttons f).

Definition AddButton (label : string) (f : Form) : Form :=
  mkForm (inputFields f) (buttons f ++ [label])%list.

(** [func (s *ImageExtender) getPodSpec(path string)], returning a
    [*corev1.PodSpec] and an [error].  The assertion to
    [dao.ContainsPodSpec] is in comma-ok form: a nil accessor, or one
    without the capability, gives [ok = false]. *)
Definition getPodSpec (s : ImageExtender) (path : string)
  : M (option v1.PodSpec.t * option error) :=
  let gvr := GVR (image_viewer s) in
  r <- call (call_AccessorFor gvr) (AccessorFor (app (image_viewer s)) gvr) ;;
  match r with
  | (_, Some err) => ret (None, Some err)
  | (res, None) =>
      match res ≫= asContainsPodSpec with
      | None =>
          let got :=
            match res with Some a => typeName a | None => "<nil>" end in
          ret (None,
               Some ("expecting a ContainsPodSpec for " ++ quote gvr
                     ++ " but got " ++ got)%string)
      | Some resourceWPodSpec =>
          call (call_GetPodSpec path) (GetPodSpec resourceWPodSpec path)
      end
  end.

(** [func (s *ImageExtender) makeSetImageForm(sel string)], returning a
    [*tview.Form] and an [error].  Reading [podSpec.InitContainers]
    through a nil [podSpec] panics. *)
Definition makeSetImageForm (s : ImageExtender) (sel : string)
  : M (option Form * option error) :=
  let f := makeStyledForm in
  r <- getPodSpec s sel ;;
  match r with
  | (_, Some err) => ret (None, Some err)
  | (None, None) => panic "nil pointer dereference"
  | (Some podSpec, None) =>
      let formContainerLines :=
        (map (fun spec =>
                mkImageFormSpec (v1.Container.Name spec)
                  (v1.Container.Image spec) "" true false false)
             (v1.PodSpec.InitContainers podSpec)
         ++ map (fun spec =>
                   mkImageFormSpec (v1.Container.Name spec)
                     (v1.Container.Image spec) "" false false false)
                (v1.PodSpec.Containers podSpec))%list in
      let f :=
        fold_left (fun f ctn => AddInputField (name ctn) (dockerImage ctn) 0 f)
          formContainerLines f in
      let f := AddButton "OK" f in
      let f := AddButton "Cancel" f in
      ret (Some f, None)
  end.

(** [func (s *ImageExtender) showImageDialog(path string) error]. *)
Definition showImageDialog (s : ImageExtender) (path : string)
  : M (option error) :=
  r <- makeSetImageForm s path ;;
  match r with
  | (_, Some err) => ret (Some err)
  | (None, None) => panic "nil pointer dereference"
  | (Some form, None) =>
      let confirm :=
        mkModalForm "<Set image>" form
          ("Set image " ++ GVR (image_viewer s) ++ " " ++ path)%string in
      call (call_AddPage imageKey confirm false false) tt ;;
      call (call_ShowPage imageKey) tt ;;
      ret None
  end.

(** [func (s *ImageExtender) setImageCmd(evt *tcell.EventKey)
    *tcell.EventKey]. *)
Definition setImageCmd (s : ImageExtender) (evt : EventKey)
  : M (option EventKey) :=
  let path := GetSelectedItem (image_viewer s) in
  if String.eqb path "" then ret None
  else
    call call_Stop tt ;;
    defer (call call_Start tt)
      (err <- showImageDialog s path ;;
       match err with
       | Some e => call (call_Flash_Err e) tt
       | None => ret tt
       end ;;
       ret None).

(** [func (s *ImageExtender) makeSetTraceLogsForm(path string)]: one
    input field and three buttons; its error is always nil. *)
Definition makeSetTraceLogsForm (s : ImageExtender) (path : string)
  : M (option Form * option error) :=
  let f := makeStyledForm in
  let '(ns, _) := client.Namespaced path in
  let f := AddInputField "Pod Name" "" 8 f in
  let f := AddButton "Start" f in
  let f := AddButton "Stop" f in
  let f := AddButton "Cancel" f in
  ret (Some f, None).

(** [func (s *ImageExtender) showTraceLogsDialog(path string) error]. *)
Definition showTraceLogsDialog (s : ImageExtender) (path : string)
  : M (option error) :=
  r <- makeSetTraceLogsForm s path ;;
  match r with
  | (_, Some err) => ret (Some err)
  | (None, None) => panic "nil pointer dereference"
  | (Some form, None) =>
      let confirm := mkModalForm "<Trace Logs>" form "" in
      call (call_AddPage imageKey confirm false false) tt ;;
      call (call_ShowPage imageKey) tt ;;
      ret None
  end.

(** [func (s *ImageExtender) setTraceLogsCmd(evt *tcell.EventKey)
    *tcell.EventKey]. *)
Definition setTraceLogsCmd (s : ImageExtender) (evt : EventKey)
  : M (option EventKey) :=
  let path := GetSelectedItem (image_viewer s) in
  if String.eqb path "" then ret None
  else
    call call_Stop tt ;;
    defer (call call_Start tt)
      (err <- showTraceLogsDialog s path ;;
       match err with
       | Some e => call (call_Flash_Err e) tt
       | None => ret tt
       end ;;
       ret None).

End handlers.

(** Kinds of calls, for counting them in a trace. *)
Definition is_flash (e : event) : bool :=
  match e with call_Flash_Err _ => true | _ => false end.

Definition is_inject (e : event) : bool :=
  match e with call_inject _ _ => true | _ => false end.

Definition is_page (e : event) : bool :=
  match e with call_AddPage _ _ _ _ | call_ShowPage _ => true | _ => false end.

Definition is_access_check (e : event) : bool :=
  match e with call_CanForResource _ _ _ => true | _ => false end.

(** What the logs command expects of its collaborators: an options
    function hands back options whenever it hands back no error, and
    the injection of a log view that has options returns. *)
Definition logs_contract (l : LogsExtender) (prev : bool) : Prop :=
  (forall f o, optionsFn l = Some f -> f prev = (o, None) -> o <> None)
  /\ (forall v,
        log_opts v <> None ->
        exists e, inject (app (logs_viewer l)) v false = Return e).

(* --------------------------------------------------------------------- *)
(** *** The image dialog: form lines and buttons                          *)
(* --------------------------------------------------------------------- *)

(** [strings.TrimSpace] belongs to the Go library; the form code is
    generic in it. *)
Class strings_Pkg := {
  TrimSpace : string -> string
}.

(** An instance for strings of ASCII characters: it cuts the six ASCII
    white-space characters Go's function cuts (Go's also cuts the
    non-ASCII white space of Unicode). *)
Definition is_space (c : Ascii.ascii) : bool :=
  let n := Ascii.nat_of_ascii c in
  ((9 <=? n)%nat && (n <=? 13)%nat) || (n =? 32)%nat.

Fixpoint trim_space_left (s : string) : string :=
  match s with
  | String c rest => if is_space c then trim_space_left rest else s
  | EmptyString => EmptyString
  end.

Definition TrimSpace_ascii (s : string) : string :=
  client.rev_string ""
    (trim_space_left (client.rev_string "" (trim_space_left s))).

Definition strings_ascii : strings_Pkg := {| TrimSpace := TrimSpace_ascii |}.

(** Every call a dialog button makes on a collaborator.  An [Infof]
    or [Msgf] call is kept as its format string and arguments. *)
Inductive dialog_call : Type :=
| dlg_WithTimeout
| dlg_cancel
| dlg_AccessorFor (gvr : string)
| dlg_SetImages (path : string) (imageSpecs : list dao.ImageSpec.t)
| dlg_log_Error (err : error) (format : string) (args : list string)
| dlg_Flash_Err (err : error)
| dlg_Flash_Infof (format : string) (args : list string)
| dlg_RemovePage (name : string)
| dlg_exec (name : string) (args : list string)
| dlg_Println (args : list string)
| dlg_Discard_Write (out : list Byte.byte).

Definition set_newDockerImage (txt : string) (m : imageFormSpec)
  : imageFormSpec :=
  mkImageFormSpec (name m) (dockerImage m) txt (init m) (traceLog m)
    (newTraceLog m).

(** The slice [formContainerLines] that [makeSetImageForm] builds. *)
Definition formContainerLines (podSpec : v1.PodSpec.t) : list imageFormSpec :=
  (map (fun spec =>
          mkImageFormSpec (v1.Container.Name spec)
            (v1.Container.Image spec) "" true false false)
       (v1.PodSpec.InitContainers podSpec)
   ++ map (fun spec =>
             mkImageFormSpec (v1.Container.Name spec)
               (v1.Container.Image spec) "" false false false)
          (v1.PodSpec.Containers podSpec))%list.

(** The dialog [showImageDialog] opens for a pod spec. *)
Definition image_dialog (gvr path : string) (podSpec : v1.PodSpec.t)
  : ModalForm :=
  mkModalForm "<Set image>"
    (mkForm
       (map (fun co => (v1.Container.Name co, v1.Container.Image co, 0))
          (v1.PodSpec.InitContainers podSpec
           ++ v1.PodSpec.Containers podSpec)%list)
       ["OK"; "Cancel"])
    ("Set image " ++ gvr ++ " " ++ path)%string.

(** The callback of the input field of line [i]:
    [ctn.newDockerImage = changed]. *)
Definition inputChanged (i : nat) (changed : string)
    (lines : list imageFormSpec) : list imageFormSpec :=
  alter (set_newDockerImage changed) i lines.

(** [func (s *ImageExtender) dismissDialog()]. *)
Definition dismissDialog : list dialog_call := [dlg_RemovePage imageKey].

Section image_form.
Context `{strings_Pkg}.

(** [func (m *imageFormSpec) modified() bool]. *)
Definition modified (m : imageFormSpec) : bool :=
  let newDockerImage := TrimSpace (newDockerImage m) in
  negb (String.eqb newDockerImage "")
  && negb (String.eqb (dockerImage m) newDockerImage).

(** [func (m *imageFormSpec) log_pressed() bool]. *)
Definition log_pressed (m : imageFormSpec) : bool :=
  negb (Bool.eqb (traceLog m) (newTraceLog m)).

(** [func (m *imageFormSpec) imageSpec() dao.ImageSpec]. *)
Definition imageSpec (m : imageFormSpec) : dao.ImageSpec.t :=
  dao.ImageSpec.mk (name m) (init m)
    (if modified m then TrimSpace (newDockerImage m) else dockerImage m).

(** [SetImages] of the accessor behind a [dao.ContainsPodSpec]. *)
Variable SetImages :
  ContainsPodSpec -> string -> list dao.ImageSpec.t -> option error.

(** [func (s *ImageExtender) setImages(ctx, path, imageSpecs) error],
    with the calls it makes. *)
Definition setImages (s : ImageExtender) (path : string)
    (imageSpecs : list dao.ImageSpec.t) : option error * list dialog_call :=
  let gvr := GVR (image_viewer s) in
  match AccessorFor (app (image_viewer s)) gvr with
  | (_, Some err) => (Some err, [dlg_AccessorFor gvr])
  | (res, None) =>
      match res ≫= asContainsPodSpec with
      | None =>
          (Some ("expecting a scalable resource for " ++ quote gvr)%string,
           [dlg_AccessorFor gvr])
      | Some resourceWPodSpec =>
          (SetImages resourceWPodSpec path imageSpecs,
           [dlg_AccessorFor gvr; dlg_SetImages path imageSpecs])
      end
  end.

(** The loop of the OK button over [formContainerLines]. *)
Definition imageSpecsModified (lines : list imageFormSpec)
  : list dao.ImageSpec.t :=
  fold_left
    (fun acc v => if modified v then (acc ++ [imageSpec v])%list else acc)
    lines [].

(** The callback of the OK button.  Its two deferred calls run last,
    the later one first: [cancel()], then [s.dismissDialog()]. *)
Definition okPressed (s : ImageExtender) (sel : string)
    (lines : list imageFormSpec) : list dialog_call :=
  let specs := imageSpecsModified lines in
  let '(err, calls) := setImages s sel specs in
  ([dlg_WithTimeout] ++ calls
   ++ match err with
      | Some e =>
          [dlg_log_Error e "PodSpec %s image update failed" [sel];
           dlg_Flash_Err e]
      | None =>
          [dlg_Flash_Infof "Resource %s:%s image updated successfully"
             [GVR (image_viewer s); sel]]
      end
   ++ [dlg_cancel] ++ dismissDialog)%list.

(** The callback of the Cancel button. *)
Definition cancelPressed : list dialog_call := dismissDialog.

End image_form.

(* --------------------------------------------------------------------- *)
(** *** The trace-logs dialog: file search, pod name, labels, buttons     *)
(* --------------------------------------------------------------------- *)

(** One call of the function given to [filepath.Walk]: with an error, or
    with the path and the [os.FileInfo] of a file ([Name], [IsDir],
    [ModTime]).  A [ModTime] is counted from the zero [time.Time]. *)
Inductive visit : Type :=
| visit_err (path : string) (err : error)
| visit_file (path name : string) (isDir : bool) (modTime : Z).

(** [filepath.Walk] as the sequence of calls it makes on [fn]: it stops
    at the first error [fn] returns and returns it. *)
Fixpoint Walk {S : Type} (fn : S -> visit -> S * option error)
    (visits : list visit) (st : S) : S * option error :=
  match visits with
  | [] => (st, None)
  | v :: rest =>
      match fn st v with
      | (st', Some err) => (st', Some err)
      | (st', None) => Walk fn rest st'
      end
  end.

Fixpoint strip_prefix (lit s : string) : option string :=
  match lit, s with
  | EmptyString, _ => Some s
  | String a lit', String b s' =>
      if Ascii.eqb a b then strip_prefix lit' s' else None
  | String _ _, EmptyString => None
  end.

Fixpoint no_separator (s : string) : bool :=
  match s with
  | EmptyString => true
  | String c rest => negb (Ascii.eqb c client.slash) && no_separator rest
  end.

(** [filepath.Match] on a pattern made of the literal [lit] and a final
    star: the star stands for any run of characters without a slash. *)
Definition Match_star (lit name : string) : bool :=
  match strip_prefix lit name with
  | Some rest => no_separator rest
  | None => false
  end.

(** The function [findLatestFile] hands to [filepath.Walk]; its state is
    the captured pair [latestModTime], [latestFile]. *)
Definition latestFn (st : Z * string) (v : visit)
  : (Z * string) * option error :=
  match v with
  | visit_err _ err => (st, Some err)
  | visit_file path name isDir modTime =>
      let '(latestModTime, latestFile) := st in
      let match_ := Match_star "traceUdmService" name in
      if negb isDir && match_ then
        if latestModTime <? modTime then ((modTime, path), None)
        else (st, None)
      else (st, None)
  end.

(** [func findLatestFile() (string, error)]; [getwd] is the error of
    [os.Getwd()], whose directory is overwritten by [/root]. *)
Definition findLatestFile (getwd : option error) (visits : list visit)
  : string * option error :=
  let dir := "/root" in
  match getwd with
  | Some err => ("", Some err)
  | None =>
      let filePattern := "traceUdmService*" in
      match Walk latestFn visits (0, "") with
      | (_, Some err) => ("", Some err)
      | ((_, latestFile), None) =>
          if negb (String.eqb latestFile "") then (latestFile, None)
          else
            ("",
             Some ("No files matching pattern " ++ filePattern
                   ++ " found in directory " ++ dir)%string)
      end
  end.

(** The function [FindTraceLogScript] hands to [filepath.Walk]; its
    state is the captured [fullpath]. *)
Definition scriptFn (fullpath : string) (v : visit) : string * option error :=
  match v with
  | visit_err _ err => (fullpath, Some err)
  | visit_file path name _ _ =>
      if String.eqb name "traceUdmService.sh.1" then (path, None)
      else (fullpath, None)
  end.

(** [func (s *ImageExtender) FindTraceLogScript() (path string)], with
    the [fmt.Println] it makes on a walk error. *)
Definition FindTraceLogScript (visits : list visit)
  : string * list dialog_call :=
  match Walk scriptFn visits "" with
  | (fullpath, Some err) =>
      (fullpath,
       [dlg_Println ["Error occurred while walking directory:"; err]])
  | (fullpath, None) => (fullpath, [])
  end.

(** The [switch changed] of the pod-name field: the case lists and the
    [podname] each one assigns. *)
Definition podnameCases : list (list string * string) :=
 [(["SDM"; "sdm"; "sd"; "SD"; "s"; "S"], "udmsdm");
  (["EE"; "ee"; "EES"; "ees"; "Ee"; "eE"; "Ees"; "E"; "e"], "udmees");
  (["SIM"; "sim"; "Sim"], "udmsim");
  (["UECM"; "Uecm"; "uecm"; "uec"; "UEC"], "udmuecm");
  (["NIM"; "nim"; "Nim"; "NI"; "ni"], "udmnim");
  (["MTS"; "MT"; "mt"; "mts"; "Mt"; "Mts"; "M"; "m"], "udmmt");
  (["PP"; "pp"; "Pp"; "pps"; "PPS"; "P"; "p"], "udmpp");
  (["UEAUTH"; "ueauth"], "udmueauth");
  (["UESFAUTH"; "uesfauth"; "ausfa"; "AUSFA"], "ausfauth");
  (["ARPF"; "arpf"], "udmarpf")].

(** The [podname] a text assigns, if some case holds it. *)
Definition podnameFor (changed : string) : option string :=
  snd <$> find (fun c => existsb (String.eqb changed) (fst c)) podnameCases.

(** The effect of the pod-name callback on the captured [podname]: the
    default case assigns nothing.  The callback also rebuilds the check
    boxes of the form, which touches neither [podname] nor [podLabel]. *)
Definition podnameChanged (changed : string) (podname : string) : string :=
  match podnameFor changed with
  | Some n => n
  | None => podname
  end.

Section trace_form.
Context `{strings_Pkg}.

(** The effect of a checkbox callback on the captured [podLabel];
    [trims] tells the callbacks that append [strings.TrimSpace(label)]
    from those that append [label]. *)
Definition checkboxChanged (trims : bool) (label : string) (checked : bool)
    (podLabel : string) : string :=
  if checked then
    (podLabel ++ " " ++ (if trims then TrimSpace label else label))%string
  else podLabel.

(** [exec.Command(name, args...).CombinedOutput()]. *)
Variable CombinedOutput :
  string -> list string -> list Byte.byte * option error.

(** The callback of the Start button; [ns] is the namespace part of the
    dialog's path.  The error of [findLatestFile] is discarded. *)
Definition startPressed (getwd : option error) (visits : list visit)
    (podname ns podLabel : string) : list dialog_call :=
  let scriptPath := fst (findLatestFile getwd visits) in
  let args := [scriptPath; "start"; podname; ns; podLabel] in
  let '(out, err) := CombinedOutput "sh" args in
  ([dlg_Flash_Infof "trace log status updated successfully" [scriptPath];
    dlg_exec "sh" args]
   ++ match err with
      | Some e =>
          [dlg_Println ["Command execution failed with error:"; e];
           dlg_Flash_Infof "trace log status open successfully!" []]
      | None =>
          [dlg_Discard_Write out;
           dlg_Flash_Infof "trace log status updated successfully" []]
      end
   ++ dismissDialog)%list.

(** The callback of the Stop button. *)
Definition stopPressed (visits : list visit)
    (podname ns podLabel : string) : list dialog_call :=
  let '(scriptPath, printed) := FindTraceLogScript visits in
  let args := [scriptPath; "stop"; podname; ns; podLabel] in
  let '(out, err) := CombinedOutput "sh" args in
  (printed ++ [dlg_exec "sh" args]
   ++ match err with
      | Some e => [dlg_Flash_Infof "trace log status closed fail!" []]
      | None =>
          [dlg_Discard_Write out;
           dlg_Flash_Infof "trace log status updated successfully" []]
      end
   ++ dismissDialog)%list.

End trace_form.

End view.

(* ===================================================================== *)
(** ** Package [internal/dao]: log items built from a window model       *)
(* ===================================================================== *)

Module log_item.

Import dao.

Definition set_Pod (p : string) (i : LogItem.t) : LogItem.t :=
  LogItem.mk p (LogItem.Container i) (LogItem.SingleContainer i)
    (LogItem.Bytes i) (LogItem.IsError i).

Definition set_Container (c : string) (i : LogItem.t) : LogItem.t :=
  LogItem.mk (LogItem.Pod i) c (LogItem.SingleContainer i)
    (LogItem.Bytes i) (LogItem.IsError i).

Definition set_SingleContainer (b : bool) (i : LogItem.t) : LogItem.t :=
  LogItem.mk (LogItem.Pod i) (LogItem.Container i) b
    (LogItem.Bytes i) (LogItem.IsError i).

Definition set_IsError (b : bool) (i : LogItem.t) : LogItem.t :=
  LogItem.mk (LogItem.Pod i) (LogItem.Container i)
    (LogItem.SingleContainer i) (LogItem.Bytes i) b.

Section ToLogItem.
Context `{client.Pkg}.

(** [NewLogItem] is declared with [LogItem], outside the sources at
    hand; the methods are generic in it. *)
Variable NewLogItem : list Byte.byte -> LogItem.t.

(** [func (o *LogOptions) ToLogItem(bytes []byte) *LogItem]. *)
Definition ToLogItem (o : LogOptions) (bytes : list Byte.byte) : LogItem.t :=
  let item := NewLogItem bytes in
  if Nat.eqb (length bytes) 0 then item
  else
    let item := set_SingleContainer (SingleContainer o) item in
    let item :=
      if LogItem.SingleContainer item then set_Container (Container o) item
      else item in
    if MultiPods o then
      let '(_, pod) := client.Namespaced (Path o) in
      (* item.Pod, item.Container = pod, o.Container *)
      set_Container (Container o) (set_Pod pod item)
    else set_Container (Container o) item.

(** [func (o *LogOptions) ToErrLogItem(err error) *LogItem]; [now] is
    [time.Now().UTC().Format(time.RFC3339Nano)]. *)
Definition ToErrLogItem (now : string) (o : LogOptions) (err : error)
  : LogItem.t :=
  let newline := String (Ascii.ascii_of_nat 10) EmptyString in
  let item :=
    NewLogItem
      (list_byte_of_string
         (now ++ " [orange::b]" ++ err ++ "[::-]" ++ newline)%string) in
  set_IsError true item.

End ToLogItem.

End log_item.

(** The [time] instance of the examples. *)
Definition time_utc : time.Pkg :=
  {| time.Time := Z; time.Parse := time.Parse_utc; time.Add := Z.add;
     time.Parse_RFC3339_empty := eq_refl |}.

(* ===================================================================== *)
(** * Sample values                                                      *)
(* ===================================================================== *)

(** A window model whose [CreateDuration] is five seconds. *)
Definition window5 : dao.LogOptions :=
  {| dao.CreateDuration := 5 * time.Second;
     dao.Path := "ns/web-0";
     dao.Container := "main";
     dao.DefaultContainer := "";
     dao.SinceTime := "";
     dao.Lines := 100;
     dao.SinceSeconds := 60;
     dao.Head := false;
     dao.Previous := false;
     dao.SingleContainer := false;
     dao.MultiPods := false;
     dao.ShowTimestamp := true;
     dao.AllContainers := false |}.

(** A head-mode window that also carries tail and since settings. *)
Definition window_head : dao.LogOptions :=
  dao.mkLogOptions 0 "ns/web-0" "main" "" "2023-05-01T10:00:00Z" 100 60
    true true false false true false.

(** Windows with a negative, a positive and no since-duration. *)
Definition window_since (secs : Z) (since : string) : dao.LogOptions :=
  dao.mkLogOptions 0 "ns/web-0" "main" "" since 100 secs
    false false false false true false.

(** Windows for the container toggle. *)
Definition window_single : dao.LogOptions :=
  dao.mkLogOptions 0 "ns/web-0" "main" "" "" 100 0
    false false true false true false.

Definition window_multi : dao.LogOptions :=
  dao.mkLogOptions 0 "ns/web-0" "main" "" "" 100 0
    false false false false true false.

(** A pod with one init container and one regular container. *)
Definition sample_podSpec : v1.PodSpec.t :=
  v1.PodSpec.mk [v1.Container.mk "init-a" "busybox:1"]
                [v1.Container.mk "main" "nginx:1"].

Definition sample_pod : v1.Pod.t :=
  v1.Pod.mk 1682935200 sample_podSpec
    (v1.PodStatus.mk [v1.ContainerStatus.mk "init-a" true 0]
                     [v1.ContainerStatus.mk "main" true 2]).

(** A factory that serves [sample_pod] and whose metrics fetch fails. *)
Definition sample_factory : dao.Factory :=
  {| dao.Content := v1.Pod.t;
     dao.Get := fun _ _ => (Some (dao.Unstructured sample_pod), None);
     dao.FetchContainersMetrics := fun _ => (∅, Some "metrics unavailable");
     dao.FromUnstructured := fun po => (po, None) |}.

Definition sample_ctx : dao.Context :=
  dao.mkContext (Some "ns/web-0") None.

(** An accessor with the pod-spec capability, and an application whose
    access check and view injection succeed. *)
Definition sample_accessor : view.Accessor :=
  view.mkAccessor "*dao.Pod"
    (Some (view.mkContainsPodSpec (fun _ => (Some sample_podSpec, None)))).

(** An accessor whose [GetPodSpec] answers a nil spec with a nil error. *)
Definition sample_accessor_nil : view.Accessor :=
  view.mkAccessor "*dao.Pod"
    (Some (view.mkContainsPodSpec (fun _ => (None, None)))).

(** An injection that succeeds on a log view with options and panics on
    one without. *)
Definition sample_inject (v : view.Log) (clear : bool)
  : outcome (option error) :=
  match view.log_opts v with
  | Some _ => Return None
  | None => Panic "nil pointer dereference"
  end.

Definition sample_app (acc : option view.Accessor * option error) : view.App :=
  view.mkApp (config.mkLogger 100 true)
    (fun _ _ _ => (true, None)) sample_inject (fun _ => acc).

(** A viewer on pods whose table shows [ns/web-0] and whose selection is
    [sel]. *)
Definition sample_viewer (sel : string)
    (acc : option view.Accessor * option error) : view.ResourceViewer :=
  view.mkResourceViewer sel "ns/web-0" "v1/pods" (sample_app acc).

Definition sample_logs (sel : string) : view.LogsExtender :=
  view.mkLogsExtender (sample_viewer sel (Some sample_accessor, None)) None.

Definition sample_image (sel : string)
    (acc : option view.Accessor * option error) : view.ImageExtender :=
  view.mkImageExtender (sample_viewer sel acc).

(** Modelled from the spec: [NewLogItem] is declared in a file of
    package [dao] that is not among the sources.  The spec describes a
    log entry as raw bytes plus derived fields; a new one holds the
    bytes and leaves the derived fields unset. *)
Definition sample_NewLogItem (bytes : list Byte.byte) : dao.LogItem.t :=
  dao.LogItem.mk "" "" false bytes false.

(** A window on several pods, with a container. *)
Definition window_pods : dao.LogOptions :=
  dao.mkLogOptions 0 "ns/web-0" "main" "" "" 100 0
    false false false true true false.

(** A factory whose pod cannot be converted. *)
Definition sample_factory_bad : dao.Factory :=
  {| dao.Content := v1.Pod.t;
     dao.Get := fun _ _ => (Some (dao.Unstructured sample_pod), None);
     dao.FetchContainersMetrics := fun _ => (∅, None);
     dao.FromUnstructured := fun po => (po, Some "cannot convert") |}.

(** A factory that serves an object of another kind. *)
Definition sample_factory_other : dao.Factory :=
  {| dao.Content := v1.Pod.t;
     dao.Get := fun _ _ => (Some (dao.OtherObject "Table"), None);
     dao.FetchContainersMetrics := fun _ => (∅, None);
     dao.FromUnstructured := fun po => (po, None) |}.

(** A factory with metrics for [main]. *)
Definition sample_factory_mx : dao.Factory :=
  {| dao.Content := v1.Pod.t;
     dao.Get := fun _ _ => (Some (dao.Unstructured sample_pod), None);
     dao.FetchContainersMetrics :=
       fun _ => ({[ "main" := mv1beta1.ContainerMetrics.mk "main" 5 64 ]},
                 None);
     dao.FromUnstructured := fun po => (po, None) |}.

(** A walk of [/root]: the directory, two trace scripts and a note. *)
Definition sample_visits : list view.visit :=
  [view.visit_file "/root" "root" true 100;
   view.visit_file "/root/traceUdmService.sh" "traceUdmService.sh" false 200;
   view.visit_file "/root/logs/traceUdmService.sh.1" "traceUdmService.sh.1"
     false 300;
   view.visit_file "/root/notes.txt" "notes.txt" false 400].

(** A shell whose commands fail, and one whose commands succeed. *)
Definition sample_exec_fails (name : string) (args : list string)
  : list Byte.byte * option error :=
  ([], Some "exit status 1").

Definition sample_exec_ok (name : string) (args : list string)
  : list Byte.byte * option error :=
  (list_byte_of_string "started", None).

(* ===================================================================== *)
(** * Properties                                                         *)
(* ===================================================================== *)

Import dao.

(** ** The instances behave as the Go library does on sample inputs *)

Example Parse_utc_sample :
  time.Parse_utc time.RFC3339 "2023-05-01T10:00:00Z"
  = Some (1682935200 * time.Second).
Proof. vm_compute. reflexivity. Qed.

Example Parse_utc_leap_day :
  time.Parse_utc time.RFC3339 "2024-02-29T23:59:59Z"
  = Some (1709251199 * time.Second)
  /\ time.Parse_utc time.RFC3339 "2023-02-29T23:59:59Z" = None.
Proof. split; vm_compute; reflexivity. Qed.

Example Namespaced_model_samples :
  client.Namespaced_model "ns/web-0" = ("ns", "web-0")
  /\ client.Namespaced_model "web-0" = ("", "web-0")
  /\ client.Namespaced_model "ns/" = ("ns", "")
  /\ client.Namespaced_model "" = ("", "").
Proof. repeat split; vm_compute; reflexivity. Qed.

(** [quote] on a plain name, a line feed, a control character and a
    double quote, by character codes. *)
Example quote_samples :
  map Ascii.nat_of_ascii (list_ascii_of_string (quote "v1"))
  = [34; 118; 49; 34]%nat
  /\ map Ascii.nat_of_ascii
       (list_ascii_of_string (quote (String (Ascii.ascii_of_nat 10) "a")))
     = [34; 92; 110; 97; 34]%nat
  /\ map Ascii.nat_of_ascii
       (list_ascii_of_string (quote (String (Ascii.ascii_of_nat 31) "")))
     = [34; 92; 120; 49; 102; 34]%nat
  /\ map Ascii.nat_of_ascii
       (list_ascii_of_string (quote (String (Ascii.ascii_of_nat 34) "")))
     = [34; 92; 34; 34]%nat.
Proof. repeat split; vm_compute; reflexivity. Qed.

(** ** Clone *)

(** The twelve fields the literal names are copied. *)
Lemma Clone_named_fields (o : LogOptions) :
  Path (Clone o) = Path o
  /\ Container (Clone o) = Container o
  /\ DefaultContainer (Clone o) = DefaultContainer o
  /\ SinceTime (Clone o) = SinceTime o
  /\ Lines (Clone o) = Lines o
  /\ SinceSeconds (Clone o) = SinceSeconds o
  /\ Head (Clone o) = Head o
  /\ Previous (Clone o) = Previous o
  /\ SingleContainer (Clone o) = SingleContainer o
  /\ MultiPods (Clone o) = MultiPods o
  /\ ShowTimestamp (Clone o) = ShowTimestamp o
  /\ AllContainers (Clone o) = AllContainers o.
Proof. repeat split. Qed.

(** The thirteenth is not: the clone's [CreateDuration] is zero. *)
Lemma Clone_CreateDuration (o : LogOptions) : CreateDuration (Clone o) = 0.
Proof. reflexivity. Qed.

(** X1.  A clone equals its original exactly when the original's
    [CreateDuration] is zero: that field is the only one [Clone] leaves
    out. *)
Lemma Clone_eq_iff (o : LogOptions) : Clone o = o <-> CreateDuration o = 0.
Proof.
  split.
  - intros E. rewrite <- E. apply Clone_CreateDuration.
  - destruct o; simpl; intros ->; reflexivity.
Qed.

(** The clone lives at an address of its own. *)
Lemma Clone_ptr_fresh (h : heap) (p q : loc) (h' : heap) :
  Clone_ptr h p = Some (q, h') ->
  exists o, h !! p = Some o /\ h !! q = None /\ q <> p
            /\ h' = <[q := Clone o]> h.
Proof.
  unfold Clone_ptr. destruct (h !! p) as [o|] eqn:Hp; [|discriminate].
  intros [= <- <-]. exists o.
  assert (Hq : h !! fresh (dom h) = None).
  { apply not_elem_of_dom, is_fresh. }
  repeat split; auto. intros E. rewrite E in Hq. congruence.
Qed.

(** X2.  Independence: a mutation of the clone leaves the original as it was,
    and a mutation of the original leaves the clone as it was. *)
Lemma Clone_ptr_independent (h : heap) (p q : loc) (h' : heap)
    (f : LogOptions -> LogOptions) :
  Clone_ptr h p = Some (q, h') ->
  mutate f q h' !! p = h !! p
  /\ mutate f p h' !! q = Clone <$> h !! p.
Proof.
  intros Hc. destruct (Clone_ptr_fresh _ _ _ _ Hc) as (o & Hp & Hq & Hne & ->).
  unfold mutate. split.
  - rewrite lookup_alter_ne by done. by rewrite lookup_insert_ne.
  - rewrite lookup_alter_ne by done. by rewrite lookup_insert_eq, Hp.
Qed.

(** A live receiver always gets its clone. *)
Lemma Clone_ptr_total (h : heap) (p : loc) (o : LogOptions) :
  h !! p = Some o -> exists q h', Clone_ptr h p = Some (q, h').
Proof. intros Hp. unfold Clone_ptr. rewrite Hp. eauto. Qed.

(** C1.  [Clone] is meant to return a value equal to the original in
    every field, [CreateDuration] included.  On [window5] it does not:
    the clone's [CreateDuration] is zero while the original's is five
    seconds, so the clone differs from the original (in the store too,
    where the clone is read back through its own pointer). *)
Theorem Clone_drops_CreateDuration :
  CreateDuration window5 = 5000000000
  /\ CreateDuration (Clone window5) = 0
  /\ Clone window5 <> window5
  /\ exists q h',
       Clone_ptr {[ 1%positive := window5 ]} 1%positive = Some (q, h')
       /\ q <> 1%positive
       /\ (CreateDuration <$> h' !! q) = Some 0
       /\ (CreateDuration <$> h' !! 1%positive) = Some 5000000000.
Proof.
  split; [reflexivity|]. split; [reflexivity|]. split; [discriminate|].
  destruct (Clone_ptr_total {[ 1%positive := window5 ]} 1%positive window5)
    as (q & h' & Hc); [apply lookup_singleton_eq|].
  exists q, h'. split; [exact Hc|].
  destruct (Clone_ptr_fresh _ _ _ _ Hc) as (o & Hp & Hq & Hne & ->).
  rewrite lookup_singleton_eq in Hp. injection Hp as <-.
  split; [exact Hne|]. split.
  - by rewrite lookup_insert_eq.
  - rewrite lookup_insert_ne by done. by rewrite lookup_singleton_eq.
Qed.

(** ** ToPodLogOptions *)

Section ToPodLogOptions_props.
Context `{time.Pkg}.

(** C2.  With [Head] set, the fetch parameters have [Follow] off,
    [TailLines], [SinceSeconds] and [SinceTime] nil and [LimitBytes] set
    (to 5000), whatever the other fields hold. *)
Theorem ToPodLogOptions_head (o : LogOptions) :
  Head o = true ->
  v1.PodLogOptions.Follow (ToPodLogOptions o) = false
  /\ v1.PodLogOptions.TailLines (ToPodLogOptions o) = None
  /\ v1.PodLogOptions.SinceSeconds (ToPodLogOptions o) = None
  /\ v1.PodLogOptions.SinceTime (ToPodLogOptions o) = None
  /\ v1.PodLogOptions.LimitBytes (ToPodLogOptions o) = Some 5000.
Proof.
  intros Hh. unfold ToPodLogOptions. rewrite Hh. simpl. repeat split.
Qed.

(** C3.  Without [Head]: a negative [SinceSeconds] gives no time
    constraint at all, whatever [SinceTime] holds; a positive one is
    carried over and no since-time is set. *)
Theorem ToPodLogOptions_since_seconds (o : LogOptions) :
  Head o = false ->
  (SinceSeconds o < 0 ->
     v1.PodLogOptions.SinceSeconds (ToPodLogOptions o) = None
     /\ v1.PodLogOptions.SinceTime (ToPodLogOptions o) = None)
  /\ (0 < SinceSeconds o ->
     v1.PodLogOptions.SinceSeconds (ToPodLogOptions o)
     = Some (SinceSeconds o)
     /\ v1.PodLogOptions.SinceTime (ToPodLogOptions o) = None).
Proof.
  intros Hh. unfold ToPodLogOptions. rewrite Hh. split; intros Hs.
  - apply Z.ltb_lt in Hs. rewrite Hs. split; reflexivity.
  - assert (Hn : (SinceSeconds o <? 0) = false) by (apply Z.ltb_ge; lia).
    assert (Hz : (SinceSeconds o =? 0) = false) by (apply Z.eqb_neq; lia).
    rewrite Hn, Hz. split; reflexivity.
Qed.

(** C4.  Without [Head] and with [SinceSeconds] zero: a [SinceTime] that
    parses under the RFC3339 layout yields the parsed instant plus one
    second as the since-time; a non-empty one that does not parse yields
    no since-time, and the translation still returns its parameters.  No
    since-duration is set either way. *)
Theorem ToPodLogOptions_since_time (o : LogOptions) :
  Head o = false ->
  SinceSeconds o = 0 ->
  (forall t,
     time.Parse time.RFC3339 (SinceTime o) = Some t ->
     v1.PodLogOptions.SinceTime (ToPodLogOptions o)
     = Some (time.Add t time.Second))
  /\ (SinceTime o <> "" ->
      time.Parse time.RFC3339 (SinceTime o) = None ->
      v1.PodLogOptions.SinceTime (ToPodLogOptions o) = None)
  /\ v1.PodLogOptions.SinceSeconds (ToPodLogOptions o) = None.
Proof.
  intros Hh Hs. unfold ToPodLogOptions. rewrite Hh, Hs. simpl.
  destruct (String.eqb (SinceTime o) "") eqn:He.
  - apply String.eqb_eq in He. rewrite He. split; [|split].
    + intros t Ht. rewrite time.Parse_RFC3339_empty in Ht. discriminate.
    + intros Hne. contradiction.
    + reflexivity.
  - destruct (time.Parse time.RFC3339 (SinceTime o)) as [t|];
      (split; [|split]); try reflexivity.
    + intros t' [= <-]. reflexivity.
    + intros _ Hp. discriminate.
    + intros t' Ht. discriminate.
Qed.

End ToPodLogOptions_props.

Lemma ToPodLogOptions_head_witness :
  v1.PodLogOptions.Follow (@ToPodLogOptions time_utc window_head) = false
  /\ v1.PodLogOptions.TailLines (@ToPodLogOptions time_utc window_head) = None
  /\ v1.PodLogOptions.SinceSeconds (@ToPodLogOptions time_utc window_head)
     = None
  /\ v1.PodLogOptions.SinceTime (@ToPodLogOptions time_utc window_head) = None
  /\ v1.PodLogOptions.LimitBytes (@ToPodLogOptions time_utc window_head)
     = Some 5000.
Proof. apply (@ToPodLogOptions_head time_utc window_head). reflexivity. Defined.

Lemma ToPodLogOptions_since_seconds_witness :
  (v1.PodLogOptions.SinceSeconds
     (@ToPodLogOptions time_utc (window_since (-1) "2023-05-01T10:00:00Z"))
   = None
   /\ v1.PodLogOptions.SinceTime
       (@ToPodLogOptions time_utc (window_since (-1) "2023-05-01T10:00:00Z"))
     = None)
  /\ (v1.PodLogOptions.SinceSeconds
       (@ToPodLogOptions time_utc (window_since 60 "2023-05-01T10:00:00Z"))
     = Some 60
     /\ v1.PodLogOptions.SinceTime
         (@ToPodLogOptions time_utc (window_since 60 "2023-05-01T10:00:00Z"))
       = None).
Proof.
  split.
  - apply (proj1 (@ToPodLogOptions_since_seconds time_utc
                    (window_since (-1) "2023-05-01T10:00:00Z") eq_refl)).
    reflexivity.
  - apply (proj2 (@ToPodLogOptions_since_seconds time_utc
                    (window_since 60 "2023-05-01T10:00:00Z") eq_refl)).
    reflexivity.
Defined.

Lemma ToPodLogOptions_since_time_witness :
  v1.PodLogOptions.SinceTime
    (@ToPodLogOptions time_utc (window_since 0 "2023-05-01T10:00:00Z"))
  = Some (1682935201 * time.Second)
  /\ v1.PodLogOptions.SinceTime
      (@ToPodLogOptions time_utc (window_since 0 "yesterday"))
    = None.
Proof.
  split.
  - apply (proj1 (@ToPodLogOptions_since_time time_utc
                    (window_since 0 "2023-05-01T10:00:00Z") eq_refl eq_refl)
             (1682935200 * time.Second)).
    vm_compute. reflexivity.
  - apply (proj1 (proj2 (@ToPodLogOptions_since_time time_utc
                             (window_since 0 "yesterday") eq_refl eq_refl))).
    + discriminate.
    + vm_compute. reflexivity.
Defined.

(** ** ToggleAllContainers *)

(** When toggling off finds no remembered name, the container is kept. *)
Lemma ToggleAllContainers_off_empty (o : LogOptions) :
  SingleContainer o = false -> AllContainers o = true ->
  DefaultContainer o = "" ->
  Container (ToggleAllContainers o) = Container o.
Proof.
  intros Hs Ha Hd. unfold ToggleAllContainers. rewrite Hs. simpl.
  rewrite Ha, Hd. reflexivity.
Qed.

(** The toggle through a pointer rewrites the struct behind it and no
    other. *)
Lemma ToggleAllContainers_ptr_lookup (h : heap) (p q : loc) :
  ToggleAllContainers_ptr p h !! q
  = if decide (p = q) then ToggleAllContainers <$> h !! q else h !! q.
Proof.
  unfold ToggleAllContainers_ptr, mutate. case_decide as E.
  - subst. apply lookup_alter_eq.
  - by apply lookup_alter_ne.
Qed.

(** C5.  With [SingleContainer] set, [ToggleAllContainers] changes
    nothing, once or twice.  Without it, one call flips [AllContainers];
    flipping it on moves [Container] into [DefaultContainer] and empties
    [Container], and the next call, flipping it off, puts a non-empty
    remembered name back into [Container]. *)
Theorem ToggleAllContainers_spec (o : LogOptions) :
  (SingleContainer o = true ->
     ToggleAllContainers o = o
     /\ ToggleAllContainers (ToggleAllContainers o) = o)
  /\ (SingleContainer o = false ->
     AllContainers (ToggleAllContainers o) = negb (AllContainers o)
     /\ (AllContainers o = false ->
         DefaultContainer (ToggleAllContainers o) = Container o
         /\ Container (ToggleAllContainers o) = ""
         /\ AllContainers (ToggleAllContainers (ToggleAllContainers o)) = false
         /\ (Container o <> "" ->
             Container (ToggleAllContainers (ToggleAllContainers o))
             = Container o))).
Proof.
  split; intros Hs.
  - unfold ToggleAllContainers. rewrite Hs. split; [reflexivity|].
    rewrite Hs. reflexivity.
  - split.
    + unfold ToggleAllContainers. rewrite Hs. simpl.
      destruct (AllContainers o); simpl; [|reflexivity].
      destruct (String.eqb (DefaultContainer o) ""); reflexivity.
    + intros Ha. unfold ToggleAllContainers. rewrite Hs. simpl.
      rewrite Ha. simpl. rewrite Hs. simpl.
      destruct (String.eqb (Container o) "") eqn:He; simpl;
        repeat split; try reflexivity.
      * intros Hne. apply String.eqb_eq in He. contradiction.
Qed.

Lemma ToggleAllContainers_spec_witness :
  (ToggleAllContainers window_single = window_single
   /\ ToggleAllContainers (ToggleAllContainers window_single) = window_single)
  /\ AllContainers (ToggleAllContainers window_multi) = true
  /\ DefaultContainer (ToggleAllContainers window_multi) = "main"
  /\ Container (ToggleAllContainers window_multi) = ""
  /\ Container (ToggleAllContainers (ToggleAllContainers window_multi))
     = "main".
Proof.
  split; [apply (ToggleAllContainers_spec window_single); reflexivity|].
  destruct (proj2 (ToggleAllContainers_spec window_multi) eq_refl)
    as (Hflip & Hon).
  destruct (Hon eq_refl) as (Hd & Hc & _ & Hback).
  split; [exact Hflip|]. split; [exact Hd|]. split; [exact Hc|].
  apply Hback. discriminate.
Defined.

(** ** Handler computations *)

Import view.
Local Open Scope handler_scope.

Section handler_laws.
Context {A B : Type} (P : event -> Prop).

Lemma returns_ret (a : A) : returns P (ret a).
Proof.
  intros tr. exists a, []. split; [|constructor].
  unfold ret. by rewrite app_nil_r.
Qed.

Lemma returns_call (e : event) (r : A) : P e -> returns P (call e r).
Proof.
  intros He tr. exists r, [e]. split; [reflexivity|].
  constructor; [exact He|constructor].
Qed.

Lemma returns_bind (m : M A) (k : A -> M B) :
  returns P m -> (forall a, returns P (k a)) -> returns P (bind m k).
Proof.
  intros Hm Hk tr. destruct (Hm tr) as (a & mid & E & Hmid).
  destruct (Hk a (tr ++ mid)%list) as (b & mid' & E' & Hmid').
  exists b, (mid ++ mid')%list. split.
  - unfold bind. rewrite E, E'. by rewrite app_assoc.
  - apply Forall_app. split; assumption.
Qed.

Lemma returns_emits (m : M A) : returns P m -> emits P m.
Proof.
  intros Hm tr. destruct (Hm tr) as (a & mid & E & Hmid).
  exists (Return a), mid. split; assumption.
Qed.

Lemma emits_panic (msg : string) : emits P (@panic A msg).
Proof.
  intros tr. exists (Panic msg), []. split; [|constructor].
  unfold panic. by rewrite app_nil_r.
Qed.

Lemma emits_bind (m : M A) (k : A -> M B) :
  emits P m -> (forall a, emits P (k a)) -> emits P (bind m k).
Proof.
  intros Hm Hk tr. destruct (Hm tr) as ([a|msg] & mid & E & Hmid).
  - destruct (Hk a (tr ++ mid)%list) as (b & mid' & E' & Hmid').
    exists b, (mid ++ mid')%list. split.
    + unfold bind. rewrite E, E'. by rewrite app_assoc.
    + apply Forall_app. split; assumption.
  - exists (Panic msg), mid. split; [|assumption].
    unfold bind. by rewrite E.
Qed.

End handler_laws.

Lemma quiet_calls :
  (forall e, quiet (call_Flash_Err e))
  /\ (forall ns gvr vs, quiet (call_CanForResource ns gvr vs))
  /\ (forall b, quiet (call_optionsFn b))
  /\ (forall v b, quiet (call_inject v b))
  /\ (forall g, quiet (call_AccessorFor g))
  /\ (forall p, quiet (call_GetPodSpec p))
  /\ (forall n i r v, quiet (call_AddPage n i r v))
  /\ (forall n, quiet (call_ShowPage n)).
Proof. repeat split; intros; intros [E|E]; discriminate. Qed.

Create HintDb handler.
#[local] Hint Resolve returns_ret returns_call returns_emits emits_panic
  : handler.
#[local] Hint Extern 1 (quiet _) =>
  (let E := fresh in intros [E|E]; discriminate) : handler.

(** The loop state after two traces in a row. *)
Lemma loop_running_app (b : bool) (t1 t2 : list event) :
  loop_running b (t1 ++ t2) = loop_running (loop_running b t1) t2.
Proof. unfold loop_running. apply fold_left_app. Qed.

(** A trace that ends in [Start] leaves the loop running. *)
Lemma loop_running_Start (b : bool) (tr : list event) :
  loop_running b (tr ++ [call_Start]) = true.
Proof. rewrite loop_running_app. reflexivity. Qed.

(** Quiet calls leave the loop as it is. *)
Lemma loop_running_quiet (b : bool) (tr : list event) :
  Forall quiet tr -> loop_running b tr = b.
Proof.
  intros Hq. revert b. induction Hq as [|e tr He _ IH]; intros b.
  - reflexivity.
  - simpl. destruct e; try apply IH; exfalso; apply He; [left|right];
      reflexivity.
Qed.

Section handler_props.
Context `{client.Pkg}.

(** The calls of [injectLog], written out for each answer of the
    injection. *)
Lemma injectLog_trace (l : LogsExtender) (opts : option LogOptions)
    (tr : list event) :
  injectLog l opts tr
  = match inject (app (logs_viewer l))
            (mkLog (GVR (logs_viewer l)) opts) false with
    | Return (Some e) =>
        (Return tt,
         (tr ++ [call_inject (mkLog (GVR (logs_viewer l)) opts) false;
                 call_Flash_Err e])%list)
    | Return None =>
        (Return tt,
         (tr ++ [call_inject (mkLog (GVR (logs_viewer l)) opts) false])%list)
    | Panic msg =>
        (Panic msg,
         (tr ++ [call_inject (mkLog (GVR (logs_viewer l)) opts) false])%list)
    end.
Proof.
  unfold injectLog, bind, call_outcome, call, ret.
  destruct (inject _ _ _) as [[e|]|msg]; simpl; try reflexivity.
  by rewrite <- app_assoc.
Qed.

#[local] Arguments injectLog : simpl never.

(** How a run of [showLogs] ends and what it has called: it returns, or
    it unwinds from a panic of the injection; it makes quiet calls only,
    with at most one access check, one injection and one flash. *)
Lemma showLogs_outcome (l : LogsExtender) (path : string) (prev : bool) :
  exists r tr,
    showLogs l path prev [] = (r, tr)
    /\ Forall quiet tr
    /\ (length (List.filter is_access_check tr) <= 1)%nat
    /\ (length (List.filter is_inject tr) <= 1)%nat
    /\ (length (List.filter is_flash tr) <= 1)%nat
    /\ (r = Return tt
        \/ exists msg v,
             r = Panic msg
             /\ inject (app (logs_viewer l)) v false = Panic msg)
    /\ (logs_contract l prev -> r = Return tt).
Proof.
  unfold showLogs. destruct (client.Namespaced path) as [ns n].
  destruct (CanForResource (app (logs_viewer l)) ns "v1/pods"
              client.MonitorAccess) as [ok [e|]].
  { cbv [bind call]. cbn. eexists _, _. split; [reflexivity|]. simpl.
    repeat split; try lia; auto. repeat constructor; auto with handler. }
  assert (Hinj : forall pre opts,
            Forall quiet pre ->
            (length (List.filter is_access_check pre) <= 1)%nat ->
            List.filter is_inject pre = [] ->
            List.filter is_flash pre = [] ->
            (logs_contract l prev -> opts <> None) ->
            exists r tr,
              injectLog l opts pre = (r, tr)
              /\ Forall quiet tr
              /\ (length (List.filter is_access_check tr) <= 1)%nat
              /\ (length (List.filter is_inject tr) <= 1)%nat
              /\ (length (List.filter is_flash tr) <= 1)%nat
              /\ (r = Return tt
                  \/ exists msg v,
                       r = Panic msg
                       /\ inject (app (logs_viewer l)) v false = Panic msg)
              /\ (logs_contract l prev -> r = Return tt)).
  { intros pre opts Hq Ha Hi Hf Ho. rewrite injectLog_trace.
    destruct (inject (app (logs_viewer l))
                (mkLog (GVR (logs_viewer l)) opts) false)
      as [[e|]|msg] eqn:E; eexists _, _; (split; [reflexivity|]);
      rewrite !List.filter_app, Hi, Hf, ?length_app; simpl;
      (split; [apply Forall_app; split;
                 [exact Hq|repeat constructor; auto with handler]|]);
      (split; [lia|]); (split; [lia|]); (split; [lia|]).
    - split; [left; reflexivity|]. reflexivity.
    - split; [left; reflexivity|]. reflexivity.
    - split; [right; eauto|].
      intros Hc. destruct Hc as [Hopt Hret].
      destruct (Hret (mkLog (GVR (logs_viewer l)) opts)) as (e' & E').
      + simpl. apply Ho. split; assumption.
      + congruence. }
  destruct (optionsFn l) as [f|] eqn:Hf.
  - destruct (f prev) as [o [e|]] eqn:Hfp; cbv [bind call]; cbn.
    + eexists _, _. split; [reflexivity|]. simpl.
      repeat split; try lia; auto. repeat constructor; auto with handler.
    + apply Hinj; simpl; try lia; try reflexivity.
      * repeat constructor; auto with handler.
      * intros [Hopt _]. apply (Hopt f o); [exact Hf|exact Hfp].
  - cbv [bind call]. cbn.
    apply Hinj; simpl; try lia; try reflexivity.
    + repeat constructor; auto with handler.
    + intros _. discriminate.
Qed.

(** The dialog code makes quiet calls only, whether it returns or panics. *)
Lemma getPodSpec_emits (s : ImageExtender) (path : string) :
  emits quiet (getPodSpec s path).
Proof.
  unfold getPodSpec. apply emits_bind; [auto with handler|].
  intros [res [e|]]; [auto with handler|].
  destruct (res ≫= asContainsPodSpec); auto with handler.
Qed.

Lemma makeSetImageForm_emits (s : ImageExtender) (sel : string) :
  emits quiet (makeSetImageForm s sel).
Proof.
  unfold makeSetImageForm. apply emits_bind; [apply getPodSpec_emits|].
  intros [[ps|] [e|]]; auto with handler.
Qed.

Lemma showImageDialog_emits (s : ImageExtender) (path : string) :
  emits quiet (showImageDialog s path).
Proof.
  unfold showImageDialog. apply emits_bind; [apply makeSetImageForm_emits|].
  intros [[f|] [e|]]; auto with handler.
  apply returns_emits.
  apply returns_bind; [auto with handler|]. intros _.
  apply returns_bind; [auto with handler|]. intros _. auto with handler.
Qed.

(** The form of the trace-logs dialog. *)
Lemma makeSetTraceLogsForm_eq (s : ImageExtender) (path : string) :
  makeSetTraceLogsForm s path
  = ret (Some (mkForm [("Pod Name", "", 8)] ["Start"; "Stop"; "Cancel"]),
         None).
Proof.
  unfold makeSetTraceLogsForm. destruct (client.Namespaced path). reflexivity.
Qed.

(** Opening the trace-logs dialog cannot fail: it adds and shows its
    page and returns a nil error. *)
Lemma showTraceLogsDialog_eq (s : ImageExtender) (path : string)
    (tr : list event) :
  showTraceLogsDialog s path tr
  = (Return None,
     (tr ++ [call_AddPage imageKey
               (mkModalForm "<Trace Logs>"
                  (mkForm [("Pod Name", "", 8)] ["Start"; "Stop"; "Cancel"])
                  "")
               false false;
             call_ShowPage imageKey])%list).
Proof.
  unfold showTraceLogsDialog. rewrite makeSetTraceLogsForm_eq.
  unfold bind, ret, call. simpl. by rewrite <- app_assoc.
Qed.

Lemma showTraceLogsDialog_returns (s : ImageExtender) (path : string) :
  returns quiet (showTraceLogsDialog s path).
Proof.
  intros tr. rewrite showTraceLogsDialog_eq. eexists _, _.
  split; [reflexivity|]. repeat constructor; auto with handler.
Qed.

(** What a [bind] that returned went through. *)
Lemma bind_Return_inv {A B} (m : M A) (k : A -> M B) tr b tr' :
  bind m k tr = (Return b, tr') ->
  exists a tr1, m tr = (Return a, tr1) /\ k a tr1 = (Return b, tr').
Proof.
  unfold bind. destruct (m tr) as [[a|msg] tr1]; [eauto|discriminate].
Qed.

(** The shape both dialog handlers share: [Stop], a deferred [Start],
    then a body of quiet calls.  Whether the body returns or panics, the
    trace is [Stop], the body's calls, [Start]. *)
Lemma stop_defer_start {A} (body : M A) :
  emits quiet body ->
  exists r mid,
    run (call call_Stop tt ;; defer (call call_Start tt) body)
    = (r, call_Stop :: mid ++ [call_Start])
    /\ body [call_Stop] = (r, call_Stop :: mid)
    /\ Forall quiet mid.
Proof.
  intros Hb. destruct (Hb [call_Stop]) as (r & mid & E & Hmid).
  exists r, mid. split; [|split; assumption].
  unfold run, bind, call, defer. simpl. rewrite E. reflexivity.
Qed.

(** The body of [setImageCmd] after the [defer]. *)
Lemma setImageCmd_body_emits (s : ImageExtender) (path : string) :
  emits quiet
    (err <- showImageDialog s path ;;
     match err with
     | Some e => call (call_Flash_Err e) tt
     | None => ret tt
     end ;;
     ret (@None EventKey)).
Proof.
  apply emits_bind; [apply showImageDialog_emits|].
  intros [e|]; apply returns_emits;
    (apply returns_bind; [auto with handler|]); intros _; auto with handler.
Qed.

(** C9.  With a selection, [setImageCmd] and [setTraceLogsCmd] call
    [Stop] first and [Start] last, with only dialog calls in between,
    whether the handler returns or unwinds from a panic; the loop is
    running afterwards.  When the accessor lookup of the image dialog
    fails, the error goes to the flash and [Start] still follows. *)
Theorem dialog_handlers_resume (s : ImageExtender) (evt : EventKey) :
  GetSelectedItem (image_viewer s) <> "" ->
  (exists r mid,
     run (setImageCmd s evt) = (r, call_Stop :: mid ++ [call_Start])
     /\ Forall quiet mid
     /\ (r = Return None \/ exists msg, r = Panic msg)
     /\ forall before,
          loop_running before (snd (run (setImageCmd s evt))) = true)
  /\ (forall a e,
       AccessorFor (app (image_viewer s)) (GVR (image_viewer s))
       = (a, Some e) ->
       run (setImageCmd s evt)
       = (Return None,
          [call_Stop; call_AccessorFor (GVR (image_viewer s));
           call_Flash_Err e; call_Start]))
  /\ (exists mid,
       run (setTraceLogsCmd s evt)
       = (Return None, call_Stop :: mid ++ [call_Start])
       /\ Forall quiet mid
       /\ forall before,
            loop_running before (snd (run (setTraceLogsCmd s evt))) = true).
Proof.
  intros Hsel. apply String.eqb_neq in Hsel.
  split; [|split].
  - destruct (stop_defer_start _
                (setImageCmd_body_emits s (GetSelectedItem (image_viewer s))))
      as (r & mid & E & Eb & Hmid).
    exists r, mid. unfold setImageCmd. rewrite Hsel, E.
    split; [reflexivity|]. split; [assumption|]. split.
    + destruct r as [k|msg]; [left|right; eauto].
      apply bind_Return_inv in Eb as (a & tr1 & _ & Eb).
      apply bind_Return_inv in Eb as (u & tr2 & _ & Eb).
      unfold ret in Eb. congruence.
    + intros before. simpl.
      change (call_Stop :: mid ++ [call_Start])
        with ((call_Stop :: mid) ++ [call_Start])%list.
      apply loop_running_Start.
  - intros a e Ha. unfold setImageCmd. rewrite Hsel.
    unfold run, showImageDialog, makeSetImageForm, getPodSpec,
      bind, call, defer, ret. simpl. rewrite Ha. reflexivity.
  - exists [call_AddPage imageKey
              (mkModalForm "<Trace Logs>"
                 (mkForm [("Pod Name", "", 8)] ["Start"; "Stop"; "Cancel"])
                 "")
              false false;
            call_ShowPage imageKey].
    unfold setTraceLogsCmd. rewrite Hsel.
    assert (E : run (call call_Stop tt ;;
                     defer (call call_Start tt)
                       (err <- showTraceLogsDialog s
                                 (GetSelectedItem (image_viewer s)) ;;
                        match err with
                        | Some e => call (call_Flash_Err e) tt
                        | None => ret tt
                        end ;;
                        ret (@None EventKey)))
                = (Return None,
                   [call_Stop;
                    call_AddPage imageKey
                      (mkModalForm "<Trace Logs>"
                         (mkForm [("Pod Name", "", 8)]
                            ["Start"; "Stop"; "Cancel"]) "")
                      false false;
                    call_ShowPage imageKey; call_Start])).
    { unfold run, bind, defer. unfold call at 1. simpl.
      rewrite showTraceLogsDialog_eq. reflexivity. }
    rewrite E. split; [reflexivity|]. split.
    + repeat constructor; auto with handler.
    + intros before. reflexivity.
Qed.

(** C7.  With an empty selection each handler returns nil at once: the
    trace of calls is empty, so nothing downstream ran and nothing was
    flashed. *)
Theorem no_selection_no_action (l : LogsExtender) (s : ImageExtender)
    (prev : bool) (evt : EventKey) :
  (GetSelectedItem (logs_viewer l) = "" ->
     run (logsCmd l prev evt) = (Return None, []))
  /\ (GetSelectedItem (image_viewer s) = "" ->
     run (setImageCmd s evt) = (Return None, [])
     /\ run (setTraceLogsCmd s evt) = (Return None, [])).
Proof.
  split; intros Hsel.
  - unfold logsCmd. rewrite Hsel. reflexivity.
  - unfold setImageCmd, setTraceLogsCmd. rewrite Hsel. split; reflexivity.
Qed.

(** A resource-shaped selection is passed on as it is. *)
Lemma logsCmd_shaped (l : LogsExtender) (prev : bool) (evt : EventKey) :
  GetSelectedItem (logs_viewer l) <> "" ->
  isResourcePath (GetSelectedItem (logs_viewer l)) = true ->
  logsCmd l prev evt
  = (showLogs l (GetSelectedItem (logs_viewer l)) prev ;; ret None).
Proof.
  intros Hsel Hshape. apply String.eqb_neq in Hsel.
  unfold logsCmd. rewrite Hsel, Hshape. reflexivity.
Qed.

(** C6.  [isResourcePath p] holds exactly when both parts [Namespaced]
    splits [p] into are non-empty.  For a non-empty selection that is
    not of this shape, [logsCmd] is [showLogs] on the table's path
    followed by the return of nil.  It never returns anything but nil,
    the one way it can end otherwise is a panic of the view injection,
    and it does return whenever the collaborators keep to their
    contract (options or an error from the options function, a
    returning injection for a view with options). *)
Theorem isResourcePath_fallback :
  (forall p,
     isResourcePath p = true
     <-> fst (client.Namespaced p) <> "" /\ snd (client.Namespaced p) <> "")
  /\ (forall (l : LogsExtender) (prev : bool) (evt : EventKey),
       GetSelectedItem (logs_viewer l) <> "" ->
       isResourcePath (GetSelectedItem (logs_viewer l)) = false ->
       logsCmd l prev evt
       = (showLogs l (Table_Path (logs_viewer l)) prev ;; ret None)
       /\ (exists r tr,
             run (logsCmd l prev evt) = (r, tr)
             /\ Forall quiet tr
             /\ (r = Return None
                 \/ exists msg v,
                      r = Panic msg
                      /\ inject (app (logs_viewer l)) v false = Panic msg))
       /\ (logs_contract l prev ->
           exists tr, run (logsCmd l prev evt) = (Return None, tr)
                      /\ Forall quiet tr)).
Proof.
  split.
  - intros p. unfold isResourcePath.
    destruct (client.Namespaced p) as [ns n]. simpl.
    rewrite andb_true_iff, !negb_true_iff, !String.eqb_neq. reflexivity.
  - intros l prev evt Hsel Hshape. apply String.eqb_neq in Hsel.
    assert (E : logsCmd l prev evt
                = (showLogs l (Table_Path (logs_viewer l)) prev ;; ret None)).
    { unfold logsCmd. rewrite Hsel, Hshape. reflexivity. }
    split; [exact E|]. rewrite E.
    destruct (showLogs_outcome l (Table_Path (logs_viewer l)) prev)
      as (r & tr & Es & Hq & _ & _ & _ & Hr & Hc).
    unfold run, bind. rewrite Es. split.
    + destruct Hr as [->|(msg & v & -> & Hp)].
      * exists (Return None), tr. split; [reflexivity|]. auto.
      * exists (Panic msg), tr. split; [reflexivity|]. split; [exact Hq|].
        right. eauto.
    + intros Hcon. rewrite (Hc Hcon). exists tr. split; [reflexivity|exact Hq].
Qed.

(** C10.  [buildLogOpts] with an empty container name sets
    [AllContainers]; with a non-empty one it leaves [AllContainers] off
    and records the name.  Both take [Lines] and [ShowTimestamp] from
    the logger configuration. *)
Theorem buildLogOpts_spec (l : LogsExtender) (path co : string)
    (prev : bool) :
  (AllContainers (buildLogOpts l path "" prev) = true
   /\ Container (buildLogOpts l path "" prev) = ""
   /\ Lines (buildLogOpts l path "" prev)
      = config.TailCount (Logger (app (logs_viewer l)))
   /\ ShowTimestamp (buildLogOpts l path "" prev)
      = config.ShowTime (Logger (app (logs_viewer l))))
  /\ (co <> "" ->
     AllContainers (buildLogOpts l path co prev) = false
     /\ Container (buildLogOpts l path co prev) = co
     /\ Lines (buildLogOpts l path co prev)
        = config.TailCount (Logger (app (logs_viewer l)))
     /\ ShowTimestamp (buildLogOpts l path co prev)
        = config.ShowTime (Logger (app (logs_viewer l)))).
Proof.
  split.
  - repeat split.
  - intros Hco. apply String.eqb_neq in Hco.
    unfold buildLogOpts. simpl. rewrite Hco. repeat split.
Qed.

End handler_props.

Lemma dialog_handlers_resume_witness :
  run (setImageCmd (sample_image "ns/web-0" (None, Some "no accessor")) 73)
  = (Return None,
     [call_Stop; call_AccessorFor "v1/pods"; call_Flash_Err "no accessor";
      call_Start]).
Proof.
  apply (proj1 (proj2 (@dialog_handlers_resume client.model
                         (sample_image "ns/web-0" (None, Some "no accessor"))
                         73 ltac:(discriminate)))
           None "no accessor").
  reflexivity.
Defined.

(** The image dialog on the sample pod: one input field per container,
    init container first, between [Stop] and [Start]. *)
Example setImageCmd_opens_dialog :
  run (setImageCmd (sample_image "ns/web-0" (Some sample_accessor, None)) 73)
  = (Return None,
     [call_Stop; call_AccessorFor "v1/pods"; call_GetPodSpec "ns/web-0";
      call_AddPage "setImage"
        (mkModalForm "<Set image>"
           (mkForm [("init-a", "busybox:1", 0); ("main", "nginx:1", 0)]
                   ["OK"; "Cancel"])
           "Set image v1/pods ns/web-0")
        false false;
      call_ShowPage "setImage"; call_Start]).
Proof. vm_compute. reflexivity. Qed.

(** A nil pod spec makes the form builder panic; [Start] still runs. *)
Example setImageCmd_panic_resumes :
  run (setImageCmd
         (sample_image "ns/web-0" (Some sample_accessor_nil, None)) 73)
  = (Panic "nil pointer dereference",
     [call_Stop; call_AccessorFor "v1/pods"; call_GetPodSpec "ns/web-0";
      call_Start]).
Proof. vm_compute. reflexivity. Qed.

(** A bare name is selected: the logs view is opened on the table path,
    for all containers. *)
Example logsCmd_bare_name :
  run (@logsCmd client.model (sample_logs "web-0") false 108)
  = (Return None,
     [call_CanForResource "ns" "v1/pods" ["get"; "list"; "watch"];
      call_inject
        (mkLog "v1/pods"
           (Some (mkLogOptions 0 "ns/web-0" "" "" "" 100 0
                    false false false false true true)))
        false]).
Proof. vm_compute. reflexivity. Qed.

Lemma no_selection_no_action_witness :
  run (@logsCmd client.model (sample_logs "") false 108) = (Return None, [])
  /\ run (setImageCmd (sample_image "" (Some sample_accessor, None)) 73)
     = (Return None, []).
Proof.
  destruct (@no_selection_no_action client.model (sample_logs "")
              (sample_image "" (Some sample_accessor, None)) false 108)
    as [Hl Hs].
  split.
  - apply Hl. reflexivity.
  - apply Hs. reflexivity.
Defined.

Lemma isResourcePath_fallback_witness :
  @isResourcePath client.model "web-0" = false
  /\ @logsCmd client.model (sample_logs "web-0") false 108
     = (@showLogs client.model (sample_logs "web-0") "ns/web-0" false ;;
        ret None)
  /\ exists tr,
       run (@logsCmd client.model (sample_logs "web-0") false 108)
       = (Return None, tr)
       /\ Forall quiet tr.
Proof.
  split; [reflexivity|].
  destruct (proj2 (@isResourcePath_fallback client.model)
              (sample_logs "web-0") false 108 ltac:(discriminate) eq_refl)
    as (E & _ & Hret).
  split; [exact E|]. apply Hret. split.
  - intros f o Hf. discriminate Hf.
  - intros [g [o|]] Hv; [|contradiction]. exists None. reflexivity.
Defined.

Lemma buildLogOpts_spec_witness :
  AllContainers (buildLogOpts (sample_logs "ns/web-0") "ns/web-0" "main" false)
  = false
  /\ Container (buildLogOpts (sample_logs "ns/web-0") "ns/web-0" "main" false)
     = "main"
  /\ Lines (buildLogOpts (sample_logs "ns/web-0") "ns/web-0" "main" false)
     = 100
  /\ ShowTimestamp
       (buildLogOpts (sample_logs "ns/web-0") "ns/web-0" "main" false)
     = true.
Proof.
  apply (proj2 (buildLogOpts_spec (sample_logs "ns/web-0") "ns/web-0" "main"
                  false)).
  discriminate.
Defined.

(** ** Container.List *)

(** Appending one record per element is a [map]. *)
Lemma fold_left_snoc {X Y} (g : X -> Y) (l : list X) (acc : list Y) :
  fold_left (fun res x => (res ++ [g x])%list) l acc = (acc ++ map g l)%list.
Proof.
  revert acc. induction l as [|x l IH]; intros acc; simpl.
  - by rewrite app_nil_r.
  - rewrite IH. by rewrite <- app_assoc.
Qed.

Section Container_props.
Context `{Factory}.

(** The records of a pod that was fetched. *)
Lemma List_fetched (gvr : string) (ctx : Context) (fqn : string)
    (u : Content) (po : v1.Pod.t) :
  KeyPath ctx = Some fqn ->
  Get "v1/pods" fqn = (Some (Unstructured u), None) ->
  FromUnstructured u = (po, None) ->
  List gvr ctx
  = Return
      ((map (fun co =>
               makeContainerRes co po
                 (metrics_used ctx fqn !! v1.Container.Name co) true)
            (v1.PodSpec.InitContainers (v1.Pod.Spec po))
        ++ map (fun co =>
                  makeContainerRes co po
                    (metrics_used ctx fqn !! v1.Container.Name co) false)
               (v1.PodSpec.Containers (v1.Pod.Spec po)))%list,
       None).
Proof.
  intros Hp Hg Hu. unfold List, fetchPod. rewrite Hp, Hg, Hu.
  rewrite !fold_left_snoc. reflexivity.
Qed.

(** C8.  For a pod that the factory serves, [List] returns (with a nil
    error) one record per declared container: the init containers in
    their declared order, flagged as such, then the regular containers
    in theirs.  This holds whatever the metrics fetch answers; when it
    fails, each record carries the entry of the map that came with the
    error, which is no metrics for the nil map. *)
Theorem List_one_record_per_container (gvr : string) (ctx : Context)
    (fqn : string) (u : Content) (po : v1.Pod.t) :
  KeyPath ctx = Some fqn ->
  Get "v1/pods" fqn = (Some (Unstructured u), None) ->
  FromUnstructured u = (po, None) ->
  exists res,
    List gvr ctx = Return (res, None)
    /\ map render.Container res
       = (v1.PodSpec.InitContainers (v1.Pod.Spec po)
          ++ v1.PodSpec.Containers (v1.Pod.Spec po))%list
    /\ map render.IsInit res
       = (repeat true (length (v1.PodSpec.InitContainers (v1.Pod.Spec po)))
          ++ repeat false
               (length (v1.PodSpec.Containers (v1.Pod.Spec po))))%list
    /\ length res
       = (length (v1.PodSpec.InitContainers (v1.Pod.Spec po))
          + length (v1.PodSpec.Containers (v1.Pod.Spec po)))%nat
    /\ (forall m e,
          FetchContainersMetrics fqn = (m, Some e) ->
          KeyWithMetrics ctx <> Some false ->
          Forall (fun r =>
                    render.MX r = m !! v1.Container.Name (render.Container r))
                 res)
    /\ (forall e,
          FetchContainersMetrics fqn = (∅, Some e) ->
          Forall (fun r => render.MX r = None) res).
Proof.
  intros Hp Hg Hu. eexists.
  split; [apply (List_fetched gvr ctx fqn u po Hp Hg Hu)|].
  set (cmx := metrics_used ctx fqn).
  split; [|split; [|split; [|split]]].
  - rewrite map_app, !map_map. simpl. by rewrite !map_id.
  - rewrite map_app, !map_map. simpl. f_equal.
    + induction (v1.PodSpec.InitContainers (v1.Pod.Spec po)); simpl; congruence.
    + induction (v1.PodSpec.Containers (v1.Pod.Spec po)); simpl; congruence.
  - by rewrite length_app, !length_map.
  - intros m e Hf Hmx.
    assert (Hc : cmx = m).
    { unfold cmx, metrics_used. rewrite Hf.
      destruct (KeyWithMetrics ctx) as [[|]|]; try reflexivity.
      contradiction. }
    rewrite Hc. apply Forall_app. split; apply Forall_map, Forall_forall;
      intros co _; reflexivity.
  - intros e Hf.
    assert (Hc : cmx = ∅).
    { unfold cmx, metrics_used. rewrite Hf.
      destruct (KeyWithMetrics ctx) as [[|]|]; reflexivity. }
    rewrite Hc. apply Forall_app. split; apply Forall_map, Forall_forall;
      intros co _; simpl; apply lookup_empty.
Qed.

(** Without a context path, or when the pod cannot be fetched, [List]
    returns the error and no records. *)
Lemma List_errors (gvr : string) (ctx : Context) :
  (KeyPath ctx = None ->
     List gvr ctx
     = Return ([], Some ("no context path for " ++ quote gvr)%string))
  /\ (forall fqn o e,
        KeyPath ctx = Some fqn -> Get "v1/pods" fqn = (o, Some e) ->
        List gvr ctx = Return ([], Some e)).
Proof.
  split.
  - intros Hp. unfold List. rewrite Hp. reflexivity.
  - intros fqn o e Hp Hg. unfold List, fetchPod. rewrite Hp, Hg.
    destruct o as [[?|?]|]; reflexivity.
Qed.

End Container_props.

Lemma List_one_record_per_container_witness :
  exists res,
    @List sample_factory "containers" sample_ctx = Return (res, None)
    /\ map render.Container res
       = [v1.Container.mk "init-a" "busybox:1";
          v1.Container.mk "main" "nginx:1"]
    /\ map render.IsInit res = [true; false]
    /\ Forall (fun r => render.MX r = None) res.
Proof.
  destruct (@List_one_record_per_container sample_factory "containers"
              sample_ctx "ns/web-0" sample_pod sample_pod
              eq_refl eq_refl eq_refl)
    as (res & HL & Hc & Hi & _ & _ & Hmx).
  exists res. split; [exact HL|]. split; [exact Hc|]. split; [exact Hi|].
  apply (Hmx "metrics unavailable"). reflexivity.
Defined.

(** The two records of the sample pod, with their statuses. *)
Example List_sample :
  @List sample_factory "containers" sample_ctx
  = Return
      ([render.mkContainerRes (v1.Container.mk "init-a" "busybox:1")
          (Some (v1.ContainerStatus.mk "init-a" true 0)) None true 1682935200;
        render.mkContainerRes (v1.Container.mk "main" "nginx:1")
          (Some (v1.ContainerStatus.mk "main" true 2)) None false 1682935200],
       None).
Proof. vm_compute. reflexivity. Qed.

(* ===================================================================== *)
(** * Further properties of the window model                             *)
(* ===================================================================== *)

(** ** Clone and the other methods *)

(** X3.  Every method of the window model answers for a clone what it
    answers for the original, and cloning commutes with the container
    toggle: the dropped [CreateDuration] is read by none of them. *)
Theorem Clone_same_behaviour `{time.Pkg} `{client.Pkg}
    (NewLogItem : list Byte.byte -> LogItem.t) (o : LogOptions)
    (bytes : list Byte.byte) :
  ToPodLogOptions (Clone o) = ToPodLogOptions o
  /\ Info (Clone o) = Info o
  /\ HasContainer (Clone o) = HasContainer o
  /\ log_item.ToLogItem NewLogItem (Clone o) bytes
     = log_item.ToLogItem NewLogItem o bytes
  /\ Clone (ToggleAllContainers o) = ToggleAllContainers (Clone o)
  /\ Clone (Clone o) = Clone o.
Proof.
  destruct o as [cd p c d st ln ss hd pv sc mp ts ac].
  repeat split.
  unfold ToggleAllContainers. simpl.
  destruct sc; [reflexivity|]. destruct ac; simpl; [|reflexivity].
  destruct (String.eqb d ""); reflexivity.
Qed.

Lemma Clone_ptr_independent_witness :
  mutate ToggleAllContainers 2%positive
    (<[2%positive := Clone window5]> {[ 1%positive := window5 ]})
    !! 1%positive
  = ({[ 1%positive := window5 ]} : heap) !! 1%positive
  /\ mutate ToggleAllContainers 1%positive
       (<[2%positive := Clone window5]> {[ 1%positive := window5 ]})
       !! 2%positive
     = Clone <$> ({[ 1%positive := window5 ]} : heap) !! 1%positive.
Proof.
  apply (Clone_ptr_independent {[ 1%positive := window5 ]} 1%positive
           2%positive _ ToggleAllContainers).
  vm_compute. reflexivity.
Defined.

(** ** ToggleAllContainers *)

(** The toggle touches [AllContainers], [Container] and
    [DefaultContainer] and no other field. *)
Theorem ToggleAllContainers_frame (o : LogOptions) :
  CreateDuration (ToggleAllContainers o) = CreateDuration o
  /\ Path (ToggleAllContainers o) = Path o
  /\ SinceTime (ToggleAllContainers o) = SinceTime o
  /\ Lines (ToggleAllContainers o) = Lines o
  /\ SinceSeconds (ToggleAllContainers o) = SinceSeconds o
  /\ Head (ToggleAllContainers o) = Head o
  /\ Previous (ToggleAllContainers o) = Previous o
  /\ SingleContainer (ToggleAllContainers o) = SingleContainer o
  /\ MultiPods (ToggleAllContainers o) = MultiPods o
  /\ ShowTimestamp (ToggleAllContainers o) = ShowTimestamp o.
Proof.
  unfold ToggleAllContainers.
  destruct (SingleContainer o) eqn:Hs; [rewrite Hs; repeat split|].
  simpl. destruct (AllContainers o); simpl;
    [destruct (String.eqb (DefaultContainer o) "")|]; simpl;
    rewrite ?Hs; repeat split.
Qed.

(** X4.  Once the toggle has switched all-containers mode on, no container
    is active; and a model in which all-containers mode always comes
    with an empty [Container] stays so under the toggle, whatever
    [SingleContainer] says. *)
Theorem ToggleAllContainers_all_means_none (o : LogOptions) :
  (SingleContainer o = false ->
     AllContainers (ToggleAllContainers o) = true ->
     Container (ToggleAllContainers o) = "")
  /\ ((AllContainers o = true -> Container o = "") ->
      AllContainers (ToggleAllContainers o) = true ->
      Container (ToggleAllContainers o) = "").
Proof.
  assert (Hcore : SingleContainer o = false ->
                  AllContainers (ToggleAllContainers o) = true ->
                  Container (ToggleAllContainers o) = "").
  { intros Hs. unfold ToggleAllContainers. rewrite Hs. simpl.
    destruct (AllContainers o); simpl; [|reflexivity].
    destruct (String.eqb (DefaultContainer o) ""); simpl; discriminate. }
  split; [exact Hcore|].
  intros Hinv. destruct (SingleContainer o) eqn:Hs; [|exact (Hcore eq_refl)].
  unfold ToggleAllContainers. rewrite Hs. exact Hinv.
Qed.

Lemma ToggleAllContainers_all_means_none_witness :
  Container (ToggleAllContainers window_multi) = ""
  /\ Container
       (ToggleAllContainers
          (mkLogOptions 0 "ns/web-0" "" "main" "" 100 0
             false false true false true true))
     = "".
Proof.
  split.
  - apply (proj1 (ToggleAllContainers_all_means_none window_multi));
      reflexivity.
  - apply (proj2 (ToggleAllContainers_all_means_none
                    (mkLogOptions 0 "ns/web-0" "" "main" "" 100 0
                       false false true false true true)));
      reflexivity.
Defined.

(** The toggle on a struct written out, all-containers mode off. *)
Lemma ToggleAllContainers_on cd p c d st ln ss hd pv mp ts :
  ToggleAllContainers
    (mkLogOptions cd p c d st ln ss hd pv false mp ts false)
  = mkLogOptions cd p "" c st ln ss hd pv false mp ts true.
Proof. reflexivity. Qed.

(** The toggle on a struct written out, all-containers mode on. *)
Lemma ToggleAllContainers_off cd p c d st ln ss hd pv mp ts :
  ToggleAllContainers
    (mkLogOptions cd p c d st ln ss hd pv false mp ts true)
  = mkLogOptions cd p (if String.eqb d "" then c else d) d
      st ln ss hd pv false mp ts false.
Proof.
  unfold ToggleAllContainers. simpl. destruct (String.eqb d ""); reflexivity.
Qed.

(** X5.  From the second call on the toggle alternates between two states:
    four calls leave what two calls leave. *)
Theorem ToggleAllContainers_period (o : LogOptions) :
  ToggleAllContainers
    (ToggleAllContainers (ToggleAllContainers (ToggleAllContainers o)))
  = ToggleAllContainers (ToggleAllContainers o).
Proof.
  destruct o as [cd p c d st ln ss hd pv sc mp ts ac].
  destruct sc; [reflexivity|]. destruct ac.
  - rewrite ToggleAllContainers_off, ToggleAllContainers_on,
      ToggleAllContainers_off, ToggleAllContainers_on.
    destruct (String.eqb d "") eqn:Hd.
    + destruct (String.eqb_spec c "") as [->|Hc]; reflexivity.
    + rewrite Hd. reflexivity.
  - rewrite ToggleAllContainers_on, ToggleAllContainers_off,
      ToggleAllContainers_on, ToggleAllContainers_off.
    destruct (String.eqb_spec c "") as [->|Hc]; [reflexivity|].
    apply String.eqb_neq in Hc. rewrite Hc. reflexivity.
Qed.

(** ** ToPodLogOptions *)

Section ToPodLogOptions_more.
Context `{time.Pkg}.

(** X6.  The part of the fetch parameters that no window setting but [Head]
    decides: the container and the previous flag are passed through,
    timestamps are always requested, following is on exactly without
    [Head], the byte cap exists exactly with [Head] and the tail count
    exactly without it. *)
Theorem ToPodLogOptions_fixed_part (o : LogOptions) :
  v1.PodLogOptions.Container (ToPodLogOptions o) = Container o
  /\ v1.PodLogOptions.Previous (ToPodLogOptions o) = Previous o
  /\ v1.PodLogOptions.Timestamps (ToPodLogOptions o) = true
  /\ v1.PodLogOptions.InsecureSkipTLSVerifyBackend (ToPodLogOptions o) = false
  /\ v1.PodLogOptions.Follow (ToPodLogOptions o) = negb (Head o)
  /\ v1.PodLogOptions.LimitBytes (ToPodLogOptions o)
     = (if Head o then Some 5000 else None)
  /\ v1.PodLogOptions.TailLines (ToPodLogOptions o)
     = (if Head o then None else Some (Lines o)).
Proof.
  unfold ToPodLogOptions.
  destruct (Head o); [repeat split|].
  destruct (SinceSeconds o <? 0); [repeat split|].
  destruct (SinceSeconds o =? 0); [|repeat split]. simpl.
  destruct (String.eqb (SinceTime o) ""); [repeat split|].
  destruct (time.Parse time.RFC3339 (SinceTime o)); repeat split.
Qed.

(** X7.  When the fetch parameters carry a since-duration and when a
    since-time: a since-duration exactly for a positive [SinceSeconds]
    without [Head], a since-time exactly for a zero [SinceSeconds]
    without [Head] whose [SinceTime] parses; never both. *)
Theorem ToPodLogOptions_time_constraint (o : LogOptions) :
  (forall s,
     v1.PodLogOptions.SinceSeconds (ToPodLogOptions o) = Some s
     <-> Head o = false /\ SinceSeconds o = s /\ 0 < s)
  /\ (forall t',
        v1.PodLogOptions.SinceTime (ToPodLogOptions o) = Some t'
        <-> Head o = false /\ SinceSeconds o = 0
            /\ exists t, time.Parse time.RFC3339 (SinceTime o) = Some t
                         /\ t' = time.Add t time.Second)
  /\ (v1.PodLogOptions.SinceSeconds (ToPodLogOptions o) = None
      \/ v1.PodLogOptions.SinceTime (ToPodLogOptions o) = None).
Proof.
  unfold ToPodLogOptions.
  destruct (Head o).
  { simpl. split; [|split; [|left; reflexivity]].
    - intros s. split; [discriminate|intros (? & _); discriminate].
    - intros t'. split; [discriminate|intros (? & _); discriminate]. }
  destruct (Z.ltb_spec (SinceSeconds o) 0) as [Hneg|Hnn].
  { simpl. split; [|split; [|left; reflexivity]].
    - intros s. split; [discriminate|intros (_ & <- & ?); lia].
    - intros t'. split; [discriminate|intros (_ & ? & _); lia]. }
  destruct (Z.eqb_spec (SinceSeconds o) 0) as [Hz|Hnz]; simpl.
  2:{ split; [|split; [|right; reflexivity]].
      - intros s. split; [intros [= <-]|intros (_ & <- & _)];
          [repeat split; lia|reflexivity].
      - intros t'. split; [discriminate|intros (_ & ? & _); lia]. }
  assert (Hs : forall s,
            @None Z = Some s
            <-> false = false /\ SinceSeconds o = s /\ 0 < s).
  { intros s. split; [discriminate|intros (_ & <- & ?); lia]. }
  destruct (String.eqb_spec (SinceTime o) "") as [He|Hne]; simpl.
  { split; [exact Hs|]. split; [|left; reflexivity].
    intros t'. split; [discriminate|].
    intros (_ & _ & t & Ht & _). rewrite He in Ht.
    rewrite time.Parse_RFC3339_empty in Ht. discriminate. }
  destruct (time.Parse time.RFC3339 (SinceTime o)) as [t|]; simpl;
    (split; [exact Hs|]); (split; [|left; reflexivity]); intros t'.
  - split; [intros [= <-]; repeat split; eauto|].
    intros (_ & _ & t0 & [= <-] & ->). reflexivity.
  - split; [discriminate|]. intros (_ & _ & t0 & Ht & _). discriminate.
Qed.

(** X8.  What the logs command asks for: the window [buildLogOpts] makes
    translates to a following fetch of the configured number of tail
    lines with no time constraint and no byte cap. *)
Theorem buildLogOpts_fetch (l : LogsExtender) (path co : string)
    (prev : bool) :
  ToPodLogOptions (buildLogOpts l path co prev)
  = v1.PodLogOptions.mk co true prev None None true
      (Some (config.TailCount (Logger (app (logs_viewer l))))) None false.
Proof.
  unfold buildLogOpts. simpl.
  destruct (String.eqb co ""); reflexivity.
Qed.

End ToPodLogOptions_more.

(** ** buildLogOpts and the toggle *)

(** X9.  The window the logs command opens has all-containers mode on and no
    container; toggling it switches the mode off and still leaves no
    container, remembered or active.  A window built for a container
    comes back to that container after two toggles, now remembered. *)
Theorem buildLogOpts_toggle (l : LogsExtender) (path co : string)
    (prev : bool) :
  (AllContainers (ToggleAllContainers (buildLogOpts l path "" prev)) = false
   /\ HasContainer (ToggleAllContainers (buildLogOpts l path "" prev)) = false
   /\ DefaultContainer (ToggleAllContainers (buildLogOpts l path "" prev))
      = "")
  /\ (co <> "" ->
      ToggleAllContainers (ToggleAllContainers (buildLogOpts l path co prev))
      = set_DefaultContainer co (buildLogOpts l path co prev)).
Proof.
  split; [repeat split|].
  intros Hco. apply String.eqb_neq in Hco.
  unfold buildLogOpts, ToggleAllContainers. simpl. rewrite Hco. simpl.
  rewrite Hco. reflexivity.
Qed.

Lemma buildLogOpts_toggle_witness :
  ToggleAllContainers
    (ToggleAllContainers
       (buildLogOpts (sample_logs "ns/web-0") "ns/web-0" "main" false))
  = set_DefaultContainer "main"
      (buildLogOpts (sample_logs "ns/web-0") "ns/web-0" "main" false).
Proof.
  apply (proj2 (buildLogOpts_toggle (sample_logs "ns/web-0") "ns/web-0"
                  "main" false)).
  discriminate.
Defined.

(** ** Info *)

Lemma string_length_app (a b : string) :
  String.length (a ++ b) = (String.length a + String.length b)%nat.
Proof. induction a as [|c a IH]; simpl; [reflexivity|]. by rewrite IH. Qed.

Lemma string_prefix_app (a b : string) : String.prefix a (a ++ b) = true.
Proof.
  induction a as [|c a IH]; simpl.
  - destruct b; reflexivity.
  - destruct (Ascii.ascii_dec c c); [exact IH|contradiction].
Qed.

Lemma string_prefix_refl (a : string) : String.prefix a a = true.
Proof.
  induction a as [|c a IH]; simpl; [reflexivity|].
  destruct (Ascii.ascii_dec c c); [exact IH|contradiction].
Qed.

(** X10.  [Info] starts with the path, and is the bare path exactly when no
    container is set. *)
Theorem Info_path (o : LogOptions) :
  String.prefix (Path o) (Info o) = true
  /\ (Info o = Path o <-> Container o = "").
Proof.
  unfold Info. destruct (Container o) as [|c cs] eqn:Hc; simpl.
  - split; [apply string_prefix_refl|tauto].
  - split; [apply string_prefix_app|]. split; [|discriminate].
    intros E. apply (f_equal String.length) in E.
    rewrite string_length_app in E. simpl in E. lia.
Qed.

(** ** Log items *)

Section ToLogItem_props.
Context `{client.Pkg}.
Variable NewLogItem : list Byte.byte -> LogItem.t.

(** X11.  An empty line gets no header: the item is the new item as it is.
    A non-empty line always gets the window's container name and its
    single-container flag, in every mode; the pod name (the name part
    of the path) is set only for a window on several pods; bytes and
    error flag stay as the new item has them. *)
Theorem ToLogItem_header (o : LogOptions) (bytes : list Byte.byte) :
  log_item.ToLogItem NewLogItem o [] = NewLogItem []
  /\ (bytes <> [] ->
      LogItem.Container (log_item.ToLogItem NewLogItem o bytes) = Container o
      /\ LogItem.SingleContainer (log_item.ToLogItem NewLogItem o bytes)
         = SingleContainer o
      /\ LogItem.Pod (log_item.ToLogItem NewLogItem o bytes)
         = (if MultiPods o then snd (client.Namespaced (Path o))
            else LogItem.Pod (NewLogItem bytes))
      /\ LogItem.Bytes (log_item.ToLogItem NewLogItem o bytes)
         = LogItem.Bytes (NewLogItem bytes)
      /\ LogItem.IsError (log_item.ToLogItem NewLogItem o bytes)
         = LogItem.IsError (NewLogItem bytes)).
Proof.
  split; [reflexivity|]. intros Hb.
  unfold log_item.ToLogItem. destruct bytes as [|b bs]; [contradiction|].
  simpl. destruct (MultiPods o).
  - destruct (client.Namespaced (Path o)) as [ns pod]. simpl.
    destruct (SingleContainer o); repeat split.
  - destruct (SingleContainer o); repeat split.
Qed.

End ToLogItem_props.

Lemma ToLogItem_header_witness :
  LogItem.Container
    (@log_item.ToLogItem client.model sample_NewLogItem window_pods
       (list_byte_of_string "ready"))
  = "main"
  /\ LogItem.Pod
       (@log_item.ToLogItem client.model sample_NewLogItem window_pods
          (list_byte_of_string "ready"))
     = "web-0".
Proof.
  destruct (proj2 (@ToLogItem_header client.model sample_NewLogItem
                     window_pods (list_byte_of_string "ready"))
              ltac:(discriminate))
    as (Hc & _ & Hp & _).
  split; [exact Hc|exact Hp].
Defined.

(** ** Container statuses and listing *)

(** A status [getContainerStatus] finds bears the requested name. *)
Lemma getContainerStatus_name (co : string) (status : v1.PodStatus.t)
    (c : v1.ContainerStatus.t) :
  getContainerStatus co status = Some c -> v1.ContainerStatus.Name c = co.
Proof.
  unfold getContainerStatus.
  destruct (find _ (v1.PodStatus.ContainerStatuses status)) as [r|] eqn:Hr.
  - intros [= <-]. apply find_some in Hr as [_ Hn].
    by apply String.eqb_eq in Hn.
  - intros Hc. apply find_some in Hc as [_ Hn].
    by apply String.eqb_eq in Hn.
Qed.

(** X12.  [getContainerStatus] answers a status of the requested name, from
    the regular statuses whenever one of them has that name; it answers
    nil exactly when neither list has a status of that name. *)
Theorem getContainerStatus_spec (co : string) (status : v1.PodStatus.t) :
  (forall c,
     getContainerStatus co status = Some c ->
     v1.ContainerStatus.Name c = co
     /\ (In c (v1.PodStatus.ContainerStatuses status)
         \/ In c (v1.PodStatus.InitContainerStatuses status)))
  /\ (forall c,
        In c (v1.PodStatus.ContainerStatuses status) ->
        v1.ContainerStatus.Name c = co ->
        exists c', getContainerStatus co status = Some c'
                   /\ In c' (v1.PodStatus.ContainerStatuses status))
  /\ (getContainerStatus co status = None
      <-> forall c,
            In c (v1.PodStatus.ContainerStatuses status)
            \/ In c (v1.PodStatus.InitContainerStatuses status) ->
            v1.ContainerStatus.Name c <> co).
Proof.
  unfold getContainerStatus.
  set (named := fun c => String.eqb (v1.ContainerStatus.Name c) co).
  destruct (find named (v1.PodStatus.ContainerStatuses status))
    as [r|] eqn:Hr.
  - apply find_some in Hr as [Hin Hn]. apply String.eqb_eq in Hn.
    split; [|split].
    + intros c [= <-]. auto.
    + intros c _ _. eauto.
    + split; [discriminate|]. intros Hno. exfalso.
      apply (Hno r); auto.
  - pose proof (find_none _ _ Hr) as Hreg.
    split; [|split].
    + intros c Hc. apply find_some in Hc as [Hin Hn].
      apply String.eqb_eq in Hn. auto.
    + intros c Hin Hn. apply Hreg in Hin. unfold named in Hin.
      apply String.eqb_neq in Hin. contradiction.
    + split.
      * intros Hi c [Hin|Hin].
        -- apply Hreg in Hin. by apply String.eqb_neq in Hin.
        -- apply (find_none _ _ Hi) in Hin. by apply String.eqb_neq in Hin.
      * intros Hno.
        destruct (find named (v1.PodStatus.InitContainerStatuses status))
          as [r|] eqn:Hi; [|reflexivity].
        apply find_some in Hi as [Hin Hn]. apply String.eqb_eq in Hn.
        exfalso. apply (Hno r); auto.
Qed.

Section Container_more.
Context `{Factory}.

(** X13.  How [List] fails: without a context path, with the error that
    names the resource (the text is stated for a resource name of ASCII
    characters); when the pod cannot be got and when it cannot be
    converted, each time with that error; and an error never comes
    with records. *)
Theorem List_failure_modes (gvr : string) (ctx : Context) :
  (forall res e, List gvr ctx = Return (res, Some e) -> res = [])
  /\ (KeyPath ctx = None ->
      (exists e, List gvr ctx = Return ([], Some e))
      /\ (ascii_only gvr = true ->
          List gvr ctx
          = Return ([], Some ("no context path for " ++ quote gvr)%string)))
  /\ (forall fqn o e,
        KeyPath ctx = Some fqn -> Get "v1/pods" fqn = (o, Some e) ->
        List gvr ctx = Return ([], Some e))
  /\ (forall fqn u po e,
        KeyPath ctx = Some fqn ->
        Get "v1/pods" fqn = (Some (Unstructured u), None) ->
        FromUnstructured u = (po, Some e) ->
        List gvr ctx = Return ([], Some e)).
Proof.
  split; [|split; [|split]].
  - intros res e. unfold List, fetchPod.
    destruct (KeyPath ctx) as [fqn|]; [|by intros [= <- _]].
    destruct (Get "v1/pods" fqn) as [[[u|k]|] [e'|]];
      try discriminate; try (by intros [= <- _]).
    destruct (FromUnstructured u) as [po [e'|]];
      [by intros [= <- _]|discriminate].
  - intros Hp. rewrite (proj1 (List_errors gvr ctx) Hp). eauto.
  - apply List_errors.
  - intros fqn u po e Hp Hg Hu. unfold List, fetchPod.
    rewrite Hp, Hg, Hu. reflexivity.
Qed.

(** X14.  An object that is not unstructured, or no object at all, handed
    back without an error makes [List] panic. *)
Theorem List_foreign_object_panics (gvr : string) (ctx : Context)
    (fqn : string) (o : option (Object Content)) :
  KeyPath ctx = Some fqn ->
  Get "v1/pods" fqn = (o, None) ->
  (forall u, o <> Some (Unstructured u)) ->
  List gvr ctx = Panic "interface conversion".
Proof.
  intros Hp Hg Ho. unfold List, fetchPod. rewrite Hp, Hg.
  destruct o as [[u|k]|]; [exfalso; by apply (Ho u)|reflexivity..].
Qed.

(** X15.  Which metrics the records carry: none when the context switches
    metrics off, whatever the metrics server holds; otherwise the entry
    of the fetched map under the container's name. *)
Theorem List_metrics (gvr : string) (ctx : Context) (fqn : string)
    (u : Content) (po : v1.Pod.t) :
  KeyPath ctx = Some fqn ->
  Get "v1/pods" fqn = (Some (Unstructured u), None) ->
  FromUnstructured u = (po, None) ->
  exists res,
    List gvr ctx = Return (res, None)
    /\ (KeyWithMetrics ctx = Some false ->
        Forall (fun r => render.MX r = None) res)
    /\ (KeyWithMetrics ctx <> Some false ->
        Forall (fun r =>
                  render.MX r
                  = fst (FetchContainersMetrics fqn)
                      !! v1.Container.Name (render.Container r))
               res).
Proof.
  intros Hp Hg Hu. eexists.
  split; [apply (List_fetched gvr ctx fqn u po Hp Hg Hu)|].
  split; intros Hmx.
  - unfold metrics_used. rewrite Hmx.
    apply Forall_app. split; apply Forall_map, Forall_forall;
      intros co _; simpl; apply lookup_empty.
  - assert (E : metrics_used ctx fqn = fst (FetchContainersMetrics fqn)).
    { unfold metrics_used.
      destruct (KeyWithMetrics ctx) as [[|]|]; try reflexivity.
      contradiction. }
    rewrite E. apply Forall_app. split; apply Forall_map, Forall_forall;
      intros co _; reflexivity.
Qed.

(** X16.  Every record carries the pod's creation time as its age, and the
    status [getContainerStatus] finds for its container, which, when
    there is one, bears the container's name. *)
Theorem List_status_and_age (gvr : string) (ctx : Context) (fqn : string)
    (u : Content) (po : v1.Pod.t) :
  KeyPath ctx = Some fqn ->
  Get "v1/pods" fqn = (Some (Unstructured u), None) ->
  FromUnstructured u = (po, None) ->
  exists res,
    List gvr ctx = Return (res, None)
    /\ Forall (fun r =>
                 render.Age r = v1.Pod.CreationTimestamp po
                 /\ render.Status r
                    = getContainerStatus
                        (v1.Container.Name (render.Container r))
                        (v1.Pod.Status po)
                 /\ forall st,
                      render.Status r = Some st ->
                      v1.ContainerStatus.Name st
                      = v1.Container.Name (render.Container r))
              res.
Proof.
  intros Hp Hg Hu. eexists.
  split; [apply (List_fetched gvr ctx fqn u po Hp Hg Hu)|].
  apply Forall_app. split; apply Forall_map, Forall_forall;
    intros co _; simpl; (split; [reflexivity|split; [reflexivity|]]);
    intros st Hst;
    apply (getContainerStatus_name _ _ st Hst).
Qed.

End Container_more.

Lemma List_failure_modes_witness :
  @List sample_factory_bad "containers" sample_ctx
  = Return ([], Some "cannot convert")
  /\ @List sample_factory "containers" (mkContext None None)
     = Return ([], Some ("no context path for " ++ quote "containers")%string).
Proof.
  split.
  - apply (proj2 (proj2 (proj2 (@List_failure_modes sample_factory_bad
                                  "containers" sample_ctx)))
             "ns/web-0" sample_pod sample_pod "cannot convert");
      reflexivity.
  - exact (proj2 (proj1 (proj2 (@List_failure_modes sample_factory
                                  "containers" (mkContext None None)))
                    eq_refl)
             eq_refl).
Defined.

Lemma List_foreign_object_panics_witness :
  @List sample_factory_other "containers" sample_ctx
  = Panic "interface conversion".
Proof.
  apply (@List_foreign_object_panics sample_factory_other "containers"
           sample_ctx "ns/web-0" (Some (OtherObject "Table")));
    [reflexivity|reflexivity|discriminate].
Defined.

Lemma List_metrics_witness :
  exists res,
    @List sample_factory_mx "containers"
      (mkContext (Some "ns/web-0") (Some false))
    = Return (res, None)
    /\ Forall (fun r => render.MX r = None) res.
Proof.
  destruct (@List_metrics sample_factory_mx "containers"
              (mkContext (Some "ns/web-0") (Some false)) "ns/web-0"
              sample_pod sample_pod eq_refl eq_refl eq_refl)
    as (res & HL & Hoff & _).
  exists res. split; [exact HL|]. apply Hoff. reflexivity.
Defined.

Lemma List_status_and_age_witness :
  exists res,
    @List sample_factory_mx "containers" sample_ctx = Return (res, None)
    /\ Forall (fun r => render.Age r = 1682935200) res.
Proof.
  destruct (@List_status_and_age sample_factory_mx "containers" sample_ctx
              "ns/web-0" sample_pod sample_pod eq_refl eq_refl eq_refl)
    as (res & HL & Hall).
  exists res. split; [exact HL|].
  eapply Forall_impl; [exact Hall|]. intros r (Ha & _). exact Ha.
Defined.

(* ===================================================================== *)
(** * Further properties of the command handlers                         *)
(* ===================================================================== *)

Section showLogs_props.
Context `{client.Pkg}.

#[local] Arguments injectLog : simpl never.

(** X17.  A failed access check ends the logs command: the error is flashed,
    the options function is not asked and no view is opened. *)
Theorem showLogs_access_denied (l : LogsExtender) (path : string)
    (prev : bool) (ok : bool) (e : error) :
  CanForResource (app (logs_viewer l)) (fst (client.Namespaced path))
    "v1/pods" client.MonitorAccess = (ok, Some e) ->
  run (showLogs l path prev)
  = (Return tt,
     [call_CanForResource (fst (client.Namespaced path)) "v1/pods"
        client.MonitorAccess;
      call_Flash_Err e]).
Proof.
  intros Hc. unfold run, showLogs.
  destruct (client.Namespaced path) as [ns n]. simpl in *.
  unfold bind, call. simpl. rewrite Hc. reflexivity.
Qed.

(** X18.  With access granted, the options function decides what is
    opened.  Its error is flashed and nothing is opened.  Otherwise the
    view is injected once, on the options the function handed back,
    nil included, or on the ones [buildLogOpts] made when there is no
    options function; what follows is decided by the injection alone:
    nothing more when it returns nil, the flash of its error when it
    returns one, and the unwinding of [showLogs] when it panics. *)
Theorem showLogs_options (l : LogsExtender) (path : string) (prev : bool)
    (ok : bool) :
  CanForResource (app (logs_viewer l)) (fst (client.Namespaced path))
    "v1/pods" client.MonitorAccess = (ok, None) ->
  (forall f o e,
     optionsFn l = Some f -> f prev = (o, Some e) ->
     run (showLogs l path prev)
     = (Return tt,
        [call_CanForResource (fst (client.Namespaced path)) "v1/pods"
           client.MonitorAccess;
         call_optionsFn prev; call_Flash_Err e]))
  /\ (forall pre v,
        (optionsFn l = None
         /\ pre = [call_CanForResource (fst (client.Namespaced path))
                     "v1/pods" client.MonitorAccess]
         /\ v = mkLog (GVR (logs_viewer l))
                  (Some (buildLogOpts l path "" prev)))
        \/ (exists f o,
              optionsFn l = Some f /\ f prev = (o, None)
              /\ pre = [call_CanForResource (fst (client.Namespaced path))
                          "v1/pods" client.MonitorAccess;
                        call_optionsFn prev]
              /\ v = mkLog (GVR (logs_viewer l)) o) ->
        (inject (app (logs_viewer l)) v false = Return None ->
         run (showLogs l path prev)
         = (Return tt, (pre ++ [call_inject v false])%list))
        /\ (forall e,
              inject (app (logs_viewer l)) v false = Return (Some e) ->
              run (showLogs l path prev)
              = (Return tt,
                 (pre ++ [call_inject v false; call_Flash_Err e])%list))
        /\ (forall msg,
              inject (app (logs_viewer l)) v false = Panic msg ->
              run (showLogs l path prev)
              = (Panic msg, (pre ++ [call_inject v false])%list))).
Proof.
  intros Hc. unfold run, showLogs.
  destruct (client.Namespaced path) as [ns n]. simpl in *.
  rewrite Hc. split.
  - intros f o e Hf Hfp. rewrite Hf, Hfp. reflexivity.
  - intros pre v [(Hf & -> & ->)|(f & o & Hf & Hfp & -> & ->)].
    + rewrite Hf. cbv [bind call]. cbn. rewrite injectLog_trace.
      split; [intros E|split; [intros e E|intros msg E]];
        rewrite E; reflexivity.
    + rewrite Hf, Hfp. cbv [bind call]. cbn. rewrite injectLog_trace.
      split; [intros E|split; [intros e E|intros msg E]];
        rewrite E; reflexivity.
Qed.

(** X19.  Whatever the selection and the collaborators, one logs command
    makes at most one access check, opens at most one view, flashes at
    most one error and never stops or starts the loop.  It ends by
    returning nil, or by unwinding from a panic of the view injection;
    it returns nil whenever the collaborators keep to their contract. *)
Theorem logsCmd_effects (l : LogsExtender) (prev : bool) (evt : EventKey) :
  exists r tr,
    run (logsCmd l prev evt) = (r, tr)
    /\ (length (List.filter is_access_check tr) <= 1)%nat
    /\ (length (List.filter is_inject tr) <= 1)%nat
    /\ (length (List.filter is_flash tr) <= 1)%nat
    /\ Forall quiet tr
    /\ (r = Return None
        \/ exists msg v,
             r = Panic msg
             /\ inject (app (logs_viewer l)) v false = Panic msg)
    /\ (logs_contract l prev -> r = Return None).
Proof.
  unfold logsCmd.
  destruct (String.eqb (GetSelectedItem (logs_viewer l)) "").
  { exists (Return None), []. simpl.
    repeat split; try lia; auto. }
  set (path := if negb (isResourcePath (GetSelectedItem (logs_viewer l)))
               then Table_Path (logs_viewer l)
               else GetSelectedItem (logs_viewer l)).
  destruct (showLogs_outcome l path prev)
    as (r & tr & E & Hq & H1 & H2 & H3 & Hr & Hc).
  unfold run, bind. rewrite E.
  destruct Hr as [->|(msg & v & -> & Hp)].
  - exists (Return None), tr. unfold ret. repeat split; auto.
  - exists (Panic msg), tr. repeat split; auto.
    + right. eauto.
    + intros Hcon. specialize (Hc Hcon). discriminate Hc.
Qed.

End showLogs_props.

Lemma showLogs_access_denied_witness :
  run (@showLogs client.model
         (mkLogsExtender
            (mkResourceViewer "ns/web-0" "ns/web-0" "v1/pods"
               (mkApp (config.mkLogger 100 true)
                  (fun _ _ _ => (false, Some "forbidden"))
                  (fun _ _ => Return None) (fun _ => (None, None))))
            None)
         "ns/web-0" false)
  = (Return tt,
     [call_CanForResource "ns" "v1/pods" ["get"; "list"; "watch"];
      call_Flash_Err "forbidden"]).
Proof.
  apply (@showLogs_access_denied client.model _ "ns/web-0" false false
           "forbidden").
  reflexivity.
Defined.

Lemma showLogs_options_witness :
  run (@showLogs client.model
         (mkLogsExtender (sample_viewer "ns/web-0" (None, None))
            (Some (fun _ => (None, None))))
         "ns/web-0" false)
  = (Panic "nil pointer dereference",
     [call_CanForResource "ns" "v1/pods" ["get"; "list"; "watch"];
      call_optionsFn false;
      call_inject (mkLog "v1/pods" None) false]).
Proof.
  apply (proj2 (proj2 (proj2 (@showLogs_options client.model
                  (mkLogsExtender (sample_viewer "ns/web-0" (None, None))
                     (Some (fun _ => (None, None))))
                  "ns/web-0" false true eq_refl)
           [call_CanForResource "ns" "v1/pods" ["get"; "list"; "watch"];
            call_optionsFn false]
           (mkLog "v1/pods" None)
           (or_intror
              (ex_intro _ (fun _ => (None, None))
                 (ex_intro _ None
                    (conj eq_refl
                       (conj eq_refl (conj eq_refl eq_refl))))))))
           "nil pointer dereference").
  reflexivity.
Defined.

(** ** The image dialog *)

(** One input field per form line, in order. *)
Lemma fold_AddInputField (lines : list imageFormSpec) (f : Form) :
  fold_left (fun f ctn => AddInputField (name ctn) (dockerImage ctn) 0 f)
    lines f
  = mkForm
      (inputFields f
       ++ map (fun ctn => (name ctn, dockerImage ctn, 0)) lines)%list
      (buttons f).
Proof.
  revert f. induction lines as [|ctn lines IH]; intros f; simpl.
  - rewrite app_nil_r. by destruct f.
  - rewrite IH. simpl. by rewrite <- app_assoc.
Qed.

(** What [showImageDialog] does for each answer of its collaborators. *)
Lemma showImageDialog_trace (s : ImageExtender) (path : string)
    (tr : list event) :
  showImageDialog s path tr
  = let gvr := GVR (image_viewer s) in
    match AccessorFor (app (image_viewer s)) gvr with
    | (_, Some e) => (Return (Some e), (tr ++ [call_AccessorFor gvr])%list)
    | (res, None) =>
        match res ≫= asContainsPodSpec with
        | None =>
            (Return
               (Some ("expecting a ContainsPodSpec for " ++ quote gvr
                      ++ " but got "
                      ++ match res with
                         | Some a => typeName a
                         | None => "<nil>"
                         end)%string),
             (tr ++ [call_AccessorFor gvr])%list)
        | Some r =>
            match GetPodSpec r path with
            | (_, Some e) =>
                (Return (Some e),
                 (tr ++ [call_AccessorFor gvr; call_GetPodSpec path])%list)
            | (None, None) =>
                (Panic "nil pointer dereference",
                 (tr ++ [call_AccessorFor gvr; call_GetPodSpec path])%list)
            | (Some podSpec, None) =>
                (Return None,
                 (tr ++ [call_AccessorFor gvr; call_GetPodSpec path;
                         call_AddPage imageKey
                           (image_dialog gvr path podSpec) false false;
                         call_ShowPage imageKey])%list)
            end
        end
    end.
Proof.
  unfold showImageDialog, makeSetImageForm, getPodSpec.
  cbv [bind call ret panic]. cbn.
  destruct (AccessorFor _ _) as [res [e|]]; cbn; [reflexivity|].
  destruct (res ≫= asContainsPodSpec) as [r|]; cbn; [|reflexivity].
  destruct (GetPodSpec r path) as [[ps|] [e|]]; cbn;
    rewrite <- ?app_assoc; try reflexivity.
  rewrite fold_AddInputField. unfold image_dialog, makeStyledForm,
    AddButton. cbn. rewrite !map_app, !map_map. reflexivity.
Qed.

(** X20.  What a set-image command on a selection does, for each answer
    of its collaborators; the loop is stopped first and started again
    last on every path.  An error of the accessor lookup is flashed and
    [GetPodSpec] is not called.  An accessor that is nil or lacks the
    pod-spec capability is a reported condition: the flashed error
    names the resource and the accessor's type.  An error of
    [GetPodSpec] is flashed.  In these three cases no page is added or
    shown.  The pod spec [GetPodSpec] hands back is the one whose
    dialog is added and shown (one input field per container, init
    containers first, then OK and Cancel), and nothing is flashed.  No
    pod spec and no error makes the command panic, after which the loop
    is still started. *)
Theorem setImageCmd_outcomes (s : ImageExtender) (evt : EventKey) :
  GetSelectedItem (image_viewer s) <> "" ->
  (forall res e,
     AccessorFor (app (image_viewer s)) (GVR (image_viewer s))
     = (res, Some e) ->
     run (setImageCmd s evt)
     = (Return None,
        [call_Stop; call_AccessorFor (GVR (image_viewer s));
         call_Flash_Err e; call_Start]))
  /\ (forall res,
        AccessorFor (app (image_viewer s)) (GVR (image_viewer s))
        = (res, None) ->
        res ≫= asContainsPodSpec = None ->
        ascii_only (GVR (image_viewer s)) = true ->
        run (setImageCmd s evt)
        = (Return None,
           [call_Stop; call_AccessorFor (GVR (image_viewer s));
            call_Flash_Err
              ("expecting a ContainsPodSpec for "
               ++ quote (GVR (image_viewer s)) ++ " but got "
               ++ match res with
                  | Some a => typeName a
                  | None => "<nil>"
                  end)%string;
            call_Start]))
  /\ (forall res r,
        AccessorFor (app (image_viewer s)) (GVR (image_viewer s))
        = (res, None) ->
        res ≫= asContainsPodSpec = Some r ->
        (forall ps e,
           GetPodSpec r (GetSelectedItem (image_viewer s)) = (ps, Some e) ->
           run (setImageCmd s evt)
           = (Return None,
              [call_Stop; call_AccessorFor (GVR (image_viewer s));
               call_GetPodSpec (GetSelectedItem (image_viewer s));
               call_Flash_Err e; call_Start]))
        /\ (forall podSpec,
              GetPodSpec r (GetSelectedItem (image_viewer s))
              = (Some podSpec, None) ->
              run (setImageCmd s evt)
              = (Return None,
                 [call_Stop; call_AccessorFor (GVR (image_viewer s));
                  call_GetPodSpec (GetSelectedItem (image_viewer s));
                  call_AddPage imageKey
                    (image_dialog (GVR (image_viewer s))
                       (GetSelectedItem (image_viewer s)) podSpec)
                    false false;
                  call_ShowPage imageKey; call_Start]))
        /\ (GetPodSpec r (GetSelectedItem (image_viewer s)) = (None, None) ->
            exists msg,
              run (setImageCmd s evt)
              = (Panic msg,
                 [call_Stop; call_AccessorFor (GVR (image_viewer s));
                  call_GetPodSpec (GetSelectedItem (image_viewer s));
                  call_Start]))).
Proof.
  intros Hsel. apply String.eqb_neq in Hsel.
  unfold setImageCmd, run. rewrite Hsel.
  cbv [bind call defer ret]. cbn. rewrite showImageDialog_trace. cbn.
  split; [|split].
  - intros res e Ha. rewrite Ha. reflexivity.
  - intros res Ha Hcap _. rewrite Ha. cbn. rewrite Hcap. reflexivity.
  - intros res r Ha Hcap. rewrite Ha. cbn. rewrite Hcap. cbn.
    split; [|split].
    + intros ps e Hg. rewrite Hg. destruct ps; reflexivity.
    + intros podSpec Hg. rewrite Hg. reflexivity.
    + intros Hg. rewrite Hg. eexists. reflexivity.
Qed.

Lemma setImageCmd_outcomes_witness :
  run (setImageCmd
         (sample_image "ns/web-0" (Some (mkAccessor "*dao.Node" None), None))
         73)
  = (Return None,
     [call_Stop; call_AccessorFor "v1/pods";
      call_Flash_Err
        ("expecting a ContainsPodSpec for " ++ quote "v1/pods"
         ++ " but got *dao.Node")%string;
      call_Start]).
Proof.
  apply (proj1 (proj2 (setImageCmd_outcomes
           (sample_image "ns/web-0" (Some (mkAccessor "*dao.Node" None), None))
           73 ltac:(discriminate)))
           (Some (mkAccessor "*dao.Node" None)));
    reflexivity.
Defined.

(** ** The image form *)

Section image_form_props.
Context `{strings_Pkg}.
Variable SetImages :
  ContainsPodSpec -> string -> list dao.ImageSpec.t -> option error.

(** A line counts as modified exactly when its trimmed new image is
    non-empty and differs from the current image.  The spec of a line
    keeps its name and init flag; its image is the trimmed new image
    for a modified line and the current image otherwise, so a blank
    entry never blanks an image. *)
Theorem imageSpec_image (m : imageFormSpec) :
  (modified m = true
   <-> TrimSpace (newDockerImage m) <> ""
       /\ dockerImage m <> TrimSpace (newDockerImage m))
  /\ dao.ImageSpec.Name (imageSpec m) = name m
  /\ dao.ImageSpec.Init (imageSpec m) = init m
  /\ dao.ImageSpec.DockerImage (imageSpec m)
     = (if modified m then TrimSpace (newDockerImage m) else dockerImage m)
  /\ (dao.ImageSpec.DockerImage (imageSpec m) = "" -> dockerImage m = "").
Proof.
  assert (Hm : modified m = true
               <-> TrimSpace (newDockerImage m) <> ""
                   /\ dockerImage m <> TrimSpace (newDockerImage m)).
  { unfold modified.
    rewrite andb_true_iff, !negb_true_iff, !String.eqb_neq. reflexivity. }
  split; [exact Hm|]. repeat split. simpl.
  destruct (modified m) eqn:E; [|auto].
  intros Hempty. destruct (proj1 Hm eq_refl) as [Hne _]. contradiction.
Qed.

(** The loop of the OK button is a filter followed by a map. *)
Lemma imageSpecsModified_filter (lines : list imageFormSpec) :
  imageSpecsModified lines = map imageSpec (List.filter modified lines).
Proof.
  assert (E : forall acc,
            fold_left
              (fun acc v =>
                 if modified v then (acc ++ [imageSpec v])%list else acc)
              lines acc
            = (acc ++ map imageSpec (List.filter modified lines))%list).
  { induction lines as [|v lines IH]; intros acc; simpl.
    - by rewrite app_nil_r.
    - rewrite IH. destruct (modified v); simpl; [|reflexivity].
      by rewrite <- app_assoc. }
  unfold imageSpecsModified. by rewrite E.
Qed.

(** X21.  The OK button collects the specs of the modified lines, in form
    order; each carries a non-empty image that differs from the line's
    current one. *)
Theorem imageSpecsModified_spec (lines : list imageFormSpec) :
  imageSpecsModified lines = map imageSpec (List.filter modified lines)
  /\ Forall (fun sp => dao.ImageSpec.DockerImage sp <> "")
       (imageSpecsModified lines)
  /\ (length (imageSpecsModified lines) <= length lines)%nat.
Proof.
  rewrite imageSpecsModified_filter. split; [reflexivity|]. split.
  - apply Forall_map, Forall_forall. intros m Hin.
    apply list_elem_of_In, filter_In in Hin as [_ Hmod].
    destruct (imageSpec_image m) as (Hiff & _ & _ & Himg & _).
    rewrite Himg, Hmod. apply Hiff in Hmod. tauto.
  - rewrite length_map. apply filter_length_le.
Qed.

(** X22.  What the OK button does, for each answer of its collaborators.
    Every run starts the timeout, looks the accessor up, and ends by
    cancelling the context and removing the dialog page.  An error of
    the lookup is logged and flashed and [SetImages] is not called; so
    is the error that names the resource when the accessor is nil or
    lacks the pod-spec capability.  Otherwise [SetImages] is called
    once with the specs of the modified lines, also when that list is
    empty: its error is logged and flashed, and without an error the
    success message is flashed. *)
Theorem okPressed_trace (s : ImageExtender) (sel : string)
    (lines : list imageFormSpec) :
  (forall res e,
     AccessorFor (app (image_viewer s)) (GVR (image_viewer s))
     = (res, Some e) ->
     okPressed SetImages s sel lines
     = [dlg_WithTimeout; dlg_AccessorFor (GVR (image_viewer s));
        dlg_log_Error e "PodSpec %s image update failed" [sel];
        dlg_Flash_Err e;
        dlg_cancel; dlg_RemovePage imageKey])
  /\ (forall res,
        AccessorFor (app (image_viewer s)) (GVR (image_viewer s))
        = (res, None) ->
        res ≫= asContainsPodSpec = None ->
        ascii_only (GVR (image_viewer s)) = true ->
        okPressed SetImages s sel lines
        = [dlg_WithTimeout; dlg_AccessorFor (GVR (image_viewer s));
           dlg_log_Error
             ("expecting a scalable resource for "
              ++ quote (GVR (image_viewer s)))%string
             "PodSpec %s image update failed" [sel];
           dlg_Flash_Err
             ("expecting a scalable resource for "
              ++ quote (GVR (image_viewer s)))%string;
           dlg_cancel; dlg_RemovePage imageKey])
  /\ (forall res r,
        AccessorFor (app (image_viewer s)) (GVR (image_viewer s))
        = (res, None) ->
        res ≫= asContainsPodSpec = Some r ->
        (forall e,
           SetImages r sel (map imageSpec (List.filter modified lines))
           = Some e ->
           okPressed SetImages s sel lines
           = [dlg_WithTimeout; dlg_AccessorFor (GVR (image_viewer s));
              dlg_SetImages sel (map imageSpec (List.filter modified lines));
              dlg_log_Error e "PodSpec %s image update failed" [sel];
              dlg_Flash_Err e;
              dlg_cancel; dlg_RemovePage imageKey])
        /\ (SetImages r sel (map imageSpec (List.filter modified lines))
            = None ->
            okPressed SetImages s sel lines
            = [dlg_WithTimeout; dlg_AccessorFor (GVR (image_viewer s));
               dlg_SetImages sel
                 (map imageSpec (List.filter modified lines));
               dlg_Flash_Infof "Resource %s:%s image updated successfully"
                 [GVR (image_viewer s); sel];
               dlg_cancel; dlg_RemovePage imageKey])).
Proof.
  unfold okPressed, setImages.
  rewrite (imageSpecsModified_filter lines).
  split; [|split].
  - intros res e Ha. rewrite Ha. reflexivity.
  - intros res Ha Hcap _. rewrite Ha, Hcap. reflexivity.
  - intros res r Ha Hcap. rewrite Ha, Hcap.
    split; [intros e Hs|intros Hs]; rewrite Hs; reflexivity.
Qed.

End image_form_props.

Lemma okPressed_trace_witness :
  @okPressed strings_ascii (fun _ _ _ => Some "conflict")
    (sample_image "ns/web-0" (Some sample_accessor, None)) "ns/web-0"
    (inputChanged 1 "nginx:2" (formContainerLines sample_podSpec))
  = [dlg_WithTimeout; dlg_AccessorFor "v1/pods";
     dlg_SetImages "ns/web-0" [dao.ImageSpec.mk "main" false "nginx:2"];
     dlg_log_Error "conflict" "PodSpec %s image update failed" ["ns/web-0"];
     dlg_Flash_Err "conflict";
     dlg_cancel; dlg_RemovePage imageKey].
Proof.
  exact (proj1 (proj2 (proj2 (@okPressed_trace strings_ascii
                                (fun _ _ _ => Some "conflict")
                                (sample_image "ns/web-0"
                                   (Some sample_accessor, None))
                                "ns/web-0"
                                (inputChanged 1 "nginx:2"
                                   (formContainerLines sample_podSpec))))
                  (Some sample_accessor)
                  (mkContainsPodSpec (fun _ => (Some sample_podSpec, None)))
                  eq_refl eq_refl)
           "conflict" eq_refl).
Defined.

(** A projection that the altering function respects is not affected by
    an update in place. *)
Lemma map_alter_same {A B} (g : A -> B) (f : A -> A) (i : nat)
    (l : list A) :
  (forall x, g (f x) = g x) -> map g (alter f i l) = map g l.
Proof.
  intros Hg. revert i. induction l as [|x l IH]; intros [|i];
    try reflexivity.
  - change (g (f x) :: map g l = g x :: map g l). by rewrite Hg.
  - change (g x :: map g (alter f i l) = g x :: map g l). by rewrite IH.
Qed.

Section image_edit_props.
Context `{strings_Pkg}.

(** Edits of the input fields: the last text typed into a field is the
    one kept, edits of different fields do not interfere, and an edit
    changes neither the number of lines nor their names, current images
    and init flags. *)
Theorem inputChanged_edits (i j : nat) (t1 t2 : string)
    (lines : list imageFormSpec) :
  inputChanged i t2 (inputChanged i t1 lines) = inputChanged i t2 lines
  /\ (i <> j ->
      inputChanged i t1 (inputChanged j t2 lines)
      = inputChanged j t2 (inputChanged i t1 lines))
  /\ length (inputChanged i t1 lines) = length lines
  /\ map name (inputChanged i t1 lines) = map name lines
  /\ map dockerImage (inputChanged i t1 lines) = map dockerImage lines
  /\ map init (inputChanged i t1 lines) = map init lines
  /\ inputChanged i t1 lines !! i = set_newDockerImage t1 <$> lines !! i.
Proof.
  unfold inputChanged. split; [|split; [|split; [|split; [|split; [|split]]]]].
  - rewrite list_alter_alter_eq. apply list_alter_ext; [|reflexivity].
    intros m _. reflexivity.
  - intros Hne. by apply list_alter_alter_ne.
  - apply length_alter.
  - by apply map_alter_same.
  - by apply map_alter_same.
  - by apply map_alter_same.
  - apply list_lookup_alter_eq.
Qed.

(** X23.  End to end: on the form as the dialog builds it, typing a text into
    one field makes the OK button send exactly one spec, the line's
    name with the trimmed text, when the trimmed text is a new
    non-empty image, and no spec otherwise. *)
Theorem one_edit_one_spec (podSpec : v1.PodSpec.t) (i : nat)
    (txt : string) (m : imageFormSpec) :
  TrimSpace "" = "" ->
  formContainerLines podSpec !! i = Some m ->
  imageSpecsModified (inputChanged i txt (formContainerLines podSpec))
  = (if negb (String.eqb (TrimSpace txt) "")
        && negb (String.eqb (dockerImage m) (TrimSpace txt))
     then [dao.ImageSpec.mk (name m) (init m) (TrimSpace txt)]
     else []).
Proof.
  intros Htrim Hm.
  assert (Hun : Forall (fun v => modified v = false)
                  (formContainerLines podSpec)).
  { unfold formContainerLines. apply Forall_app.
    split; apply Forall_map, Forall_forall; intros co _;
      unfold modified; simpl; rewrite Htrim; reflexivity. }
  rewrite imageSpecsModified_filter. unfold inputChanged.
  revert i Hm Hun. generalize (formContainerLines podSpec) as lines.
  induction lines as [|v lines IH]; intros i Hm Hun; [discriminate|].
  apply Forall_cons_1 in Hun as [Hv Hun].
  destruct i as [|i].
  - injection Hm as ->.
    change (alter (set_newDockerImage txt) 0%nat (m :: lines))
      with (set_newDockerImage txt m :: lines).
    assert (Hrest : List.filter modified lines = []).
    { clear IH. induction Hun as [|w lines Hw _ IHl]; [reflexivity|].
      simpl. rewrite Hw. exact IHl. }
    simpl. rewrite Hrest. unfold imageSpec, modified. simpl.
    destruct (negb (String.eqb (TrimSpace txt) "")
              && negb (String.eqb (dockerImage m) (TrimSpace txt))) eqn:E;
      cbn; rewrite ?E; reflexivity.
  - change (alter (set_newDockerImage txt) (S i) (v :: lines))
      with (v :: alter (set_newDockerImage txt) i lines).
    simpl. rewrite Hv. apply IH; assumption.
Qed.

End image_edit_props.

Lemma one_edit_one_spec_witness :
  @imageSpecsModified strings_ascii
    (inputChanged 1 "  nginx:2 " (formContainerLines sample_podSpec))
  = [dao.ImageSpec.mk "main" false "nginx:2"].
Proof.
  apply (@one_edit_one_spec strings_ascii sample_podSpec 1 "  nginx:2 "
           (mkImageFormSpec "main" "nginx:1" "" false false false));
    reflexivity.
Defined.

(** ** The file searches of the trace-logs dialog *)

(** A walk over two stretches of visits is the walk over the first
    continued over the second, unless the first one failed. *)
Lemma Walk_app {S} (fn : S -> visit -> S * option error)
    (pre post : list visit) (st : S) :
  Walk fn (pre ++ post) st
  = match Walk fn pre st with
    | (st', Some e) => (st', Some e)
    | (st', None) => Walk fn post st'
    end.
Proof.
  revert st. induction pre as [|v pre IH]; intros st; simpl; [reflexivity|].
  destruct (fn st v) as [st1 [e|]]; [reflexivity|apply IH].
Qed.

(** What a completed walk of [findLatestFile] has established: no visit
    carried an error, the recorded time only grew, every matching file
    is at most as new as the recorded time, and if the record changed
    it holds the path and time of a matching file. *)
Lemma Walk_latest_inv (visits : list visit) (st st' : Z * string) :
  Walk latestFn visits st = (st', None) ->
  (forall p e, ~ In (visit_err p e) visits)
  /\ fst st <= fst st'
  /\ (forall p n t,
        In (visit_file p n false t) visits ->
        Match_star "traceUdmService" n = true -> t <= fst st')
  /\ (st' = st
      \/ exists n,
           In (visit_file (snd st') n false (fst st')) visits
           /\ Match_star "traceUdmService" n = true
           /\ fst st < fst st').
Proof.
  revert st. induction visits as [|v visits IH]; intros st; simpl.
  - intros [= <-]. repeat split; try lia; [tauto..|auto].
  - destruct v as [q e|q n d t]; simpl; [discriminate|].
    destruct st as [lt lf].
    set (st1 := if negb d && Match_star "traceUdmService" n
                then if lt <? t then (t, q) else (lt, lf)
                else (lt, lf)).
    assert (Estep : latestFn (lt, lf) (visit_file q n d t) = (st1, None)).
    { unfold latestFn, st1.
      destruct (negb d && Match_star "traceUdmService" n);
        [destruct (lt <? t)|]; reflexivity. }
    unfold latestFn in Estep. simpl in Estep. rewrite Estep.
    intros HW. destruct (IH _ HW) as (Hne & Hmono & Hmax & Hsrc).
    assert (Hstep : lt <= fst st1
                    /\ (d = false -> Match_star "traceUdmService" n = true ->
                        t <= fst st1)
                    /\ (st1 = (lt, lf)
                        \/ (st1 = (t, q) /\ d = false
                            /\ Match_star "traceUdmService" n = true
                            /\ lt < t))).
    { unfold st1. destruct d; simpl.
      - split; [lia|]. split; [intros; congruence|]. left. reflexivity.
      - destruct (Match_star "traceUdmService" n); simpl.
        + destruct (Z.ltb_spec lt t); simpl.
          * split; [lia|]. split; [intros; lia|]. right. auto.
          * split; [lia|]. split; [intros; lia|]. left. reflexivity.
        + split; [lia|]. split; [intros; congruence|]. left. reflexivity. }
    destruct Hstep as (Hs1 & Hs2 & Hs3).
    split; [|split; [|split]].
    + intros p e [Hin|Hin]; [discriminate|]. by apply (Hne p e).
    + simpl. lia.
    + intros p n' t' [Hin|Hin] Hm.
      * injection Hin as -> -> -> ->. specialize (Hs2 eq_refl Hm). lia.
      * by apply (Hmax p n' t').
    + destruct Hsrc as [->|(n' & Hin & Hm & Hlt)].
      * destruct Hs3 as [->|(-> & -> & Hm & Hlt)]; [left; reflexivity|].
        right. exists n. simpl. auto.
      * right. exists n'. simpl in *. repeat split; auto. lia.
Qed.

(** X24.  [findLatestFile] answers the newest matching file: a path it
    returns without an error is the non-empty path of a visited regular
    file whose name matches [traceUdmService*], whose time is after the
    zero time, and which no visited matching file is newer than. *)
Theorem findLatestFile_newest (getwd : option error) (visits : list visit)
    (p : string) :
  findLatestFile getwd visits = (p, None) ->
  p <> "" /\ getwd = None
  /\ exists n t,
       In (visit_file p n false t) visits
       /\ Match_star "traceUdmService" n = true
       /\ 0 < t
       /\ forall p' n' t',
            In (visit_file p' n' false t') visits ->
            Match_star "traceUdmService" n' = true -> t' <= t.
Proof.
  unfold findLatestFile. destruct getwd as [e|]; [discriminate|].
  destruct (Walk latestFn visits (0, "")) as [[lt lf] [e|]] eqn:HW;
    [discriminate|].
  destruct (String.eqb_spec lf "") as [->|Hne]; simpl; [discriminate|].
  intros [= <-]. split; [exact Hne|]. split; [reflexivity|].
  destruct (Walk_latest_inv _ _ _ HW) as (_ & _ & Hmax & Hsrc).
  destruct Hsrc as [[= -> ->]|(n & Hin & Hm & Hlt)]; [contradiction|].
  exists n, lt. simpl in *. repeat split; auto.
Qed.

Lemma findLatestFile_newest_witness :
  "/root/logs/traceUdmService.sh.1" <> ""
  /\ @None error = None
  /\ exists n t,
       In (visit_file "/root/logs/traceUdmService.sh.1" n false t)
         sample_visits
       /\ Match_star "traceUdmService" n = true
       /\ 0 < t
       /\ forall p' n' t',
            In (visit_file p' n' false t') sample_visits ->
            Match_star "traceUdmService" n' = true -> t' <= t.
Proof.
  apply (findLatestFile_newest None sample_visits
           "/root/logs/traceUdmService.sh.1").
  reflexivity.
Defined.

(** A walk without errors completes. *)
Lemma Walk_latest_total (visits : list visit) (st : Z * string) :
  (forall p e, ~ In (visit_err p e) visits) ->
  exists st', Walk latestFn visits st = (st', None).
Proof.
  revert st. induction visits as [|v visits IH]; intros st Hne; simpl.
  - eauto.
  - destruct v as [q e|q n d t].
    + exfalso. apply (Hne q e). left. reflexivity.
    + assert (E : exists st1,
                latestFn st (visit_file q n d t) = (st1, None)).
      { unfold latestFn. destruct st as [lt lf].
        destruct (negb d && Match_star "traceUdmService" n);
          [destruct (lt <? t)|]; eauto. }
      destruct E as (st1 & E). rewrite E. apply IH.
      intros p e Hin. apply (Hne p e). right. exact Hin.
Qed.

(** X25.  When [findLatestFile] fails: with the error of [os.Getwd]; with the
    error of the first failing visit, whatever was found before it; and
    with its own error when the walk completes without having met a
    matching regular file newer than the zero time. *)
Theorem findLatestFile_errors (getwd : option error) (visits : list visit) :
  (forall e, getwd = Some e -> findLatestFile getwd visits = ("", Some e))
  /\ (forall pre q e post,
        getwd = None ->
        visits = (pre ++ visit_err q e :: post)%list ->
        (forall q' e', ~ In (visit_err q' e') pre) ->
        findLatestFile getwd visits = ("", Some e))
  /\ (getwd = None ->
      (forall q e, ~ In (visit_err q e) visits) ->
      (forall p n t,
         In (visit_file p n false t) visits ->
         Match_star "traceUdmService" n = true -> t <= 0) ->
      findLatestFile getwd visits
      = ("",
         Some ("No files matching pattern traceUdmService*"
               ++ " found in directory /root")%string)).
Proof.
  split; [|split].
  - intros e ->. reflexivity.
  - intros pre q e post -> -> Hpre. unfold findLatestFile.
    rewrite Walk_app.
    destruct (Walk_latest_total pre (0, "") Hpre) as ([lt lf] & E).
    rewrite E. reflexivity.
  - intros -> Hne Hold. unfold findLatestFile.
    destruct (Walk_latest_total visits (0, "") Hne) as ([lt lf] & E).
    rewrite E.
    destruct (Walk_latest_inv _ _ _ E) as (_ & _ & _ & Hsrc).
    destruct Hsrc as [[= -> ->]|(n & Hin & Hm & Hlt)]; [reflexivity|].
    simpl in *. specialize (Hold _ _ _ Hin Hm). lia.
Qed.

(** X26.  When [findLatestFile] succeeds: whenever the walk meets no error
    and some matching regular file, newer than the zero time, under
    non-empty paths. *)
Theorem findLatestFile_finds (visits : list visit) (p n : string) (t : Z) :
  (forall q e, ~ In (visit_err q e) visits) ->
  (forall q n' d t', In (visit_file q n' d t') visits -> q <> "") ->
  In (visit_file p n false t) visits ->
  Match_star "traceUdmService" n = true ->
  0 < t ->
  exists found, findLatestFile None visits = (found, None).
Proof.
  intros Hne Hpaths Hin Hm Ht. unfold findLatestFile.
  destruct (Walk_latest_total visits (0, "") Hne) as ([lt lf] & E).
  rewrite E.
  destruct (Walk_latest_inv _ _ _ E) as (_ & _ & Hmax & Hsrc).
  specialize (Hmax _ _ _ Hin Hm). simpl in Hmax.
  destruct Hsrc as [[= -> ->]|(n' & Hin' & _)]; [lia|].
  simpl in Hin'. apply Hpaths in Hin'. apply String.eqb_neq in Hin'.
  rewrite Hin'. simpl. eauto.
Qed.

Lemma findLatestFile_errors_witness :
  findLatestFile None
    [visit_file "/root" "root" true 100;
     visit_file "/root/traceUdmService.sh" "traceUdmService.sh" false 200;
     visit_err "/root/private" "permission denied";
     visit_file "/root/notes.txt" "notes.txt" false 400]
  = ("", Some "permission denied").
Proof.
  apply (proj1 (proj2 (findLatestFile_errors None _))
           [visit_file "/root" "root" true 100;
            visit_file "/root/traceUdmService.sh" "traceUdmService.sh"
              false 200]
           "/root/private" "permission denied"
           [visit_file "/root/notes.txt" "notes.txt" false 400]).
  - reflexivity.
  - reflexivity.
  - intros q' e' [Hin|[Hin|[]]]; discriminate.
Defined.

Lemma findLatestFile_finds_witness :
  exists found, findLatestFile None sample_visits = (found, None).
Proof.
  apply (findLatestFile_finds sample_visits "/root/traceUdmService.sh"
           "traceUdmService.sh" 200).
  - intros q e [Hin|[Hin|[Hin|[Hin|[]]]]]; discriminate.
  - intros q n' d t' [Hin|[Hin|[Hin|[Hin|[]]]]];
      injection Hin as <- _ _ _; discriminate.
  - right. left. reflexivity.
  - reflexivity.
  - reflexivity.
Defined.

(** A walk of [FindTraceLogScript] without errors completes. *)
Lemma Walk_script_total (visits : list visit) (st : string) :
  (forall q e, ~ In (visit_err q e) visits) ->
  exists st', Walk scriptFn visits st = (st', None).
Proof.
  revert st. induction visits as [|v visits IH]; intros st Hne; simpl.
  - eauto.
  - destruct v as [q e|q n d t]; simpl.
    + exfalso. apply (Hne q e). left. reflexivity.
    + destruct (String.eqb n "traceUdmService.sh.1"); apply IH;
        intros p e Hin; apply (Hne p e); right; exact Hin.
Qed.

(** Visits without errors and without the script leave the path found
    so far. *)
Lemma Walk_script_clean (visits : list visit) (st : string) :
  (forall q e, ~ In (visit_err q e) visits) ->
  (forall q d t, ~ In (visit_file q "traceUdmService.sh.1" d t) visits) ->
  Walk scriptFn visits st = (st, None).
Proof.
  revert st. induction visits as [|v visits IH]; intros st Hne Hno; simpl.
  - reflexivity.
  - destruct v as [q e|q n d t]; simpl.
    + exfalso. apply (Hne q e). left. reflexivity.
    + destruct (String.eqb_spec n "traceUdmService.sh.1") as [->|_].
      * exfalso. apply (Hno q d t). left. reflexivity.
      * apply IH.
        -- intros p e Hin. apply (Hne p e). right. exact Hin.
        -- intros p d' t' Hin. apply (Hno p d' t'). right. exact Hin.
Qed.

(** X27.  [FindTraceLogScript] answers the path of the last visited entry,
    file or directory, named [traceUdmService.sh.1], and the empty path
    when there is none.  A walk error is printed, not returned: the
    answer is then what was found before the error. *)
Theorem FindTraceLogScript_spec (visits : list visit) :
  (forall pre p d t post,
     visits = (pre ++ visit_file p "traceUdmService.sh.1" d t :: post)%list ->
     (forall q e, ~ In (visit_err q e) visits) ->
     (forall q d' t', ~ In (visit_file q "traceUdmService.sh.1" d' t') post) ->
     FindTraceLogScript visits = (p, []))
  /\ ((forall q e, ~ In (visit_err q e) visits) ->
      (forall q d t, ~ In (visit_file q "traceUdmService.sh.1" d t) visits) ->
      FindTraceLogScript visits = ("", []))
  /\ (forall pre q e post,
        visits = (pre ++ visit_err q e :: post)%list ->
        (forall q' e', ~ In (visit_err q' e') pre) ->
        FindTraceLogScript visits
        = (fst (FindTraceLogScript pre),
           [dlg_Println ["Error occurred while walking directory:"; e]])).
Proof.
  split; [|split].
  - intros pre p d t post -> Hne Hno. unfold FindTraceLogScript.
    rewrite Walk_app.
    assert (Hpre : forall q e, ~ In (visit_err q e) pre).
    { intros q e Hin. apply (Hne q e), in_or_app. left. exact Hin. }
    assert (Hpost : forall q e, ~ In (visit_err q e) post).
    { intros q e Hin. apply (Hne q e), in_or_app. right. right. exact Hin. }
    destruct (Walk_script_total pre "" Hpre) as (st' & E). rewrite E.
    simpl. rewrite (Walk_script_clean post p Hpost Hno). reflexivity.
  - intros Hne Hno. unfold FindTraceLogScript.
    rewrite (Walk_script_clean visits "" Hne Hno). reflexivity.
  - intros pre q e post -> Hpre. unfold FindTraceLogScript.
    rewrite Walk_app.
    destruct (Walk_script_total pre "" Hpre) as (st' & E). rewrite E.
    reflexivity.
Qed.

Lemma FindTraceLogScript_spec_witness :
  FindTraceLogScript sample_visits = ("/root/logs/traceUdmService.sh.1", []).
Proof.
  apply (proj1 (FindTraceLogScript_spec sample_visits)
           [visit_file "/root" "root" true 100;
            visit_file "/root/traceUdmService.sh" "traceUdmService.sh"
              false 200]
           "/root/logs/traceUdmService.sh.1" false 300
           [visit_file "/root/notes.txt" "notes.txt" false 400]).
  - reflexivity.
  - intros q e [Hin|[Hin|[Hin|[Hin|[]]]]]; discriminate.
  - intros q d' t' [Hin|[]]. discriminate.
Defined.

(** ** The buttons and fields of the trace-logs dialog *)

(** A text of a case list gets the name of that case. *)
Lemma podnameFor_case (txt : string) (l : list string) (n : string) :
  In (l, n) podnameCases -> In txt l -> podnameFor txt = Some n.
Proof.
  intros Hin Hl. unfold podnameCases in Hin. simpl in Hin.
  repeat (destruct Hin as [[= <- <-]|Hin];
          [simpl in Hl;
           repeat (destruct Hl as [<-|Hl]; [reflexivity|]);
           contradiction|]).
  contradiction.
Qed.

(** A text of no case list gets no name. *)
Lemma podnameFor_default (txt : string) :
  (forall l n, In (l, n) podnameCases -> ~ In txt l) ->
  podnameFor txt = None.
Proof.
  intros Hno. unfold podnameFor.
  destruct (find _ podnameCases) as [[l n]|] eqn:E; [|reflexivity].
  apply find_some in E as [Hin Hex]. simpl in Hex.
  apply existsb_exists in Hex as (x & Hx & Heq).
  apply String.eqb_eq in Heq. subst x.
  exfalso. exact (Hno l n Hin Hx).
Qed.

(** X28.  The pod name handed to the trace script is never free text.  A
    text typed into the pod-name field that stands in a case list sets
    the name of that case, one of ten fixed names; any other text
    leaves the earlier name in place.  So after a sequence of texts the
    name is the one of the last text that stands in a case list, and
    the name it had before when there is no such text. *)
Theorem podname_from_cases (texts : list string) (podname : string) :
  (forall txt pn l n,
     In (l, n) podnameCases -> In txt l -> podnameChanged txt pn = n)
  /\ (forall txt pn,
        (forall l n, In (l, n) podnameCases -> ~ In txt l) ->
        podnameChanged txt pn = pn)
  /\ map snd podnameCases
     = ["udmsdm"; "udmees"; "udmsim"; "udmuecm"; "udmnim"; "udmmt";
        "udmpp"; "udmueauth"; "ausfauth"; "udmarpf"]
  /\ ((forall txt l n,
         In txt texts -> In (l, n) podnameCases -> ~ In txt l) ->
      fold_left (fun pn txt => podnameChanged txt pn) texts podname
      = podname)
  /\ (forall pre txt post l n,
        texts = (pre ++ txt :: post)%list ->
        In (l, n) podnameCases -> In txt l ->
        (forall txt' l' n',
           In txt' post -> In (l', n') podnameCases -> ~ In txt' l') ->
        fold_left (fun pn txt => podnameChanged txt pn) texts podname = n).
Proof.
  assert (Hcase : forall txt pn l n,
            In (l, n) podnameCases -> In txt l -> podnameChanged txt pn = n).
  { intros txt pn l n Hin Hl. unfold podnameChanged.
    by rewrite (podnameFor_case txt l n Hin Hl). }
  assert (Hdef : forall txt pn,
            (forall l n, In (l, n) podnameCases -> ~ In txt l) ->
            podnameChanged txt pn = pn).
  { intros txt pn Hno. unfold podnameChanged.
    by rewrite (podnameFor_default txt Hno). }
  assert (Hkeep : forall ts pn,
            (forall txt l n,
               In txt ts -> In (l, n) podnameCases -> ~ In txt l) ->
            fold_left (fun pn txt => podnameChanged txt pn) ts pn = pn).
  { induction ts as [|t ts IH]; intros pn Hno; simpl; [reflexivity|].
    rewrite Hdef.
    - apply IH. intros txt l n Hin. apply Hno. right. exact Hin.
    - intros l n. apply Hno. left. reflexivity. }
  split; [exact Hcase|]. split; [exact Hdef|].
  split; [reflexivity|]. split; [apply Hkeep|].
  intros pre txt post l n -> Hin Hl Hpost.
  rewrite fold_left_app. simpl.
  rewrite (Hkeep post _ Hpost). by apply (Hcase txt _ l n).
Qed.

Lemma podname_from_cases_witness :
  fold_left (fun pn txt => podnameChanged txt pn) ["ee"; "sdm"; "sdmx"] ""
  = "udmsdm"
  /\ fold_left (fun pn txt => podnameChanged txt pn) ["pod-1"; "x"] "udmpp"
     = "udmpp".
Proof.
  split.
  - apply (proj2 (proj2 (proj2 (proj2
             (podname_from_cases ["ee"; "sdm"; "sdmx"] ""))))
             ["ee"] "sdm" ["sdmx"]
             ["SDM"; "sdm"; "sd"; "SD"; "s"; "S"] "udmsdm" eq_refl).
    + left. reflexivity.
    + right. left. reflexivity.
    + intros txt' l' n' [<-|[]] Hin Hl.
      apply (podnameFor_case _ _ _ Hin) in Hl. discriminate Hl.
  - apply (proj1 (proj2 (proj2 (proj2
             (podname_from_cases ["pod-1"; "x"] "udmpp"))))).
    intros txt l n [<-|[<-|[]]] Hin Hl;
      apply (podnameFor_case _ _ _ Hin) in Hl; discriminate Hl.
Defined.

Section trace_form_props.
Context `{strings_Pkg}.
Variable CombinedOutput :
  string -> list string -> list Byte.byte * option error.

(** X29.  Labels are only ever appended: after any sequence of check-box
    events the label string is the earlier one followed by the labels
    of the events that checked a box, in order; an event that unchecks
    a box removes nothing. *)
Theorem checkbox_labels (events : list (bool * string * bool))
    (podLabel : string) :
  fold_left
    (fun pl (ev : bool * string * bool) =>
       checkboxChanged (fst (fst ev)) (snd (fst ev)) (snd ev) pl)
    events podLabel
  = (podLabel
     ++ String.concat ""
          (map (fun ev : bool * string * bool =>
                  if snd ev then
                    " " ++ (if fst (fst ev) then TrimSpace (snd (fst ev))
                            else snd (fst ev))
                  else "")
             events))%string.
Proof.
  assert (Hnil : forall a : string, (a ++ "")%string = a).
  { induction a as [|c a IH]; [reflexivity|].
    change (String c (a ++ "") = String c a). f_equal. exact IH. }
  assert (Hassoc : forall a b c : string,
            ((a ++ b) ++ c)%string = (a ++ b ++ c)%string).
  { induction a as [|x a IH]; intros b c; [reflexivity|].
    change (String x ((a ++ b) ++ c) = String x (a ++ b ++ c)).
    f_equal. apply IH. }
  assert (Hconcat : forall (x : string) (l : list string),
            String.concat "" (x :: l) = (x ++ String.concat "" l)%string).
  { intros x [|y l]; simpl; [by rewrite Hnil|reflexivity]. }
  revert podLabel. induction events as [|[[trims label] checked] events IH];
    intros podLabel.
  - simpl. by rewrite Hnil.
  - change (fold_left
              (fun pl (ev : bool * string * bool) =>
                 checkboxChanged (fst (fst ev)) (snd (fst ev)) (snd ev) pl)
              events (checkboxChanged trims label checked podLabel)
            = (podLabel
               ++ String.concat ""
                    ((if checked then
                        " " ++ (if trims then TrimSpace label else label)
                      else "")
                     :: map (fun ev : bool * string * bool =>
                               if snd ev then
                                 " " ++ (if fst (fst ev)
                                         then TrimSpace (snd (fst ev))
                                         else snd (fst ev))
                               else "")
                          events))%string).
    rewrite IH, Hconcat. unfold checkboxChanged.
    destruct checked; simpl; [|reflexivity].
    by rewrite Hassoc.
Qed.

(** X30.  The Start and Stop buttons report no error, ever; what they do
    is decided by the answer of the one shell command each runs.  Start
    flashes its first message, runs the shell on the found script, and
    then, when the command fails, prints the error and flashes that the
    trace was opened; when it succeeds, discards the output and flashes
    the update.  A failed search for the Start script is not noticed:
    the script path is then empty.  Stop prints what the script search
    printed, runs the shell, and flashes the failure when the command
    fails; when it succeeds, it discards the output and flashes the
    update.  Both remove the dialog page last. *)
Theorem trace_buttons_trace (getwd : option error) (visits : list visit)
    (podname ns podLabel : string) :
  (forall out e,
     CombinedOutput "sh"
       [fst (findLatestFile getwd visits); "start"; podname; ns; podLabel]
     = (out, Some e) ->
     startPressed CombinedOutput getwd visits podname ns podLabel
     = [dlg_Flash_Infof "trace log status updated successfully"
          [fst (findLatestFile getwd visits)];
        dlg_exec "sh"
          [fst (findLatestFile getwd visits); "start"; podname; ns;
           podLabel];
        dlg_Println ["Command execution failed with error:"; e];
        dlg_Flash_Infof "trace log status open successfully!" [];
        dlg_RemovePage imageKey])
  /\ (forall out,
        CombinedOutput "sh"
          [fst (findLatestFile getwd visits); "start"; podname; ns;
           podLabel]
        = (out, None) ->
        startPressed CombinedOutput getwd visits podname ns podLabel
        = [dlg_Flash_Infof "trace log status updated successfully"
             [fst (findLatestFile getwd visits)];
           dlg_exec "sh"
             [fst (findLatestFile getwd visits); "start"; podname; ns;
              podLabel];
           dlg_Discard_Write out;
           dlg_Flash_Infof "trace log status updated successfully" [];
           dlg_RemovePage imageKey])
  /\ (forall e,
        snd (findLatestFile getwd visits) = Some e ->
        fst (findLatestFile getwd visits) = "")
  /\ (forall out e,
        CombinedOutput "sh"
          [fst (FindTraceLogScript visits); "stop"; podname; ns; podLabel]
        = (out, Some e) ->
        stopPressed CombinedOutput visits podname ns podLabel
        = (snd (FindTraceLogScript visits)
           ++ [dlg_exec "sh"
                 [fst (FindTraceLogScript visits); "stop"; podname; ns;
                  podLabel];
               dlg_Flash_Infof "trace log status closed fail!" [];
               dlg_RemovePage imageKey])%list)
  /\ (forall out,
        CombinedOutput "sh"
          [fst (FindTraceLogScript visits); "stop"; podname; ns; podLabel]
        = (out, None) ->
        stopPressed CombinedOutput visits podname ns podLabel
        = (snd (FindTraceLogScript visits)
           ++ [dlg_exec "sh"
                 [fst (FindTraceLogScript visits); "stop"; podname; ns;
                  podLabel];
               dlg_Discard_Write out;
               dlg_Flash_Infof "trace log status updated successfully" [];
               dlg_RemovePage imageKey])%list).
Proof.
  split; [|split; [|split; [|split]]].
  - intros out e Hc. unfold startPressed. rewrite Hc. reflexivity.
  - intros out Hc. unfold startPressed. rewrite Hc. reflexivity.
  - intros e. unfold findLatestFile.
    destruct getwd as [e'|]; [reflexivity|].
    destruct (Walk latestFn visits (0, "")) as [[lt lf] [e'|]];
      [reflexivity|].
    destruct (negb (String.eqb lf "")); [discriminate|reflexivity].
  - intros out e. unfold stopPressed.
    destruct (FindTraceLogScript visits) as [scriptPath printed]. simpl.
    intros Hc. rewrite Hc. reflexivity.
  - intros out. unfold stopPressed.
    destruct (FindTraceLogScript visits) as [scriptPath printed]. simpl.
    intros Hc. rewrite Hc. reflexivity.
Qed.

End trace_form_props.

Lemma trace_buttons_trace_witness :
  @startPressed sample_exec_fails None sample_visits "udmsdm" "ns" " NGC_SDM"
  = [dlg_Flash_Infof "trace log status updated successfully"
       ["/root/logs/traceUdmService.sh.1"];
     dlg_exec "sh"
       ["/root/logs/traceUdmService.sh.1"; "start"; "udmsdm"; "ns";
        " NGC_SDM"];
     dlg_Println ["Command execution failed with error:"; "exit status 1"];
     dlg_Flash_Infof "trace log status open successfully!" [];
     dlg_RemovePage imageKey]
  /\ @stopPressed sample_exec_ok sample_visits "udmsdm" "ns" " NGC_SDM"
     = [dlg_exec "sh"
          ["/root/logs/traceUdmService.sh.1"; "stop"; "udmsdm"; "ns";
           " NGC_SDM"];
        dlg_Discard_Write (list_byte_of_string "started");
        dlg_Flash_Infof "trace log status updated successfully" [];
        dlg_RemovePage imageKey].
Proof.
  split.
  - exact (proj1 (@trace_buttons_trace sample_exec_fails None sample_visits
                    "udmsdm" "ns" " NGC_SDM")
             [] "exit status 1" eq_refl).
  - exact (proj2 (proj2 (proj2 (proj2
             (@trace_buttons_trace sample_exec_ok None sample_visits
                "udmsdm" "ns" " NGC_SDM"))))
             (list_byte_of_string "started") eq_refl).
Defined.
